(** * tabli: the tab-window model of [tabWindow.js]

    A shallow embedding of [src/tabli-core/src/js/tabWindow.js] and of the
    parts of Immutable.js (v3) and lodash it calls, followed by the
    properties of the reconciliation engine ([mergeOpenTabs]) and of the
    single-event mutators.

    Conventions of the embedding:
    - An Immutable [Record] is a Rocq record; [r.set(k, v)] is a setter,
      [r.remove(k)] puts the default of the record type back.
    - An Immutable [Seq] is a [list]; positions are [nat].
    - JavaScript numbers that hold tab ids and positions are [Z].
    - A nullable field ([savedState], [openState]) and an optional property
      ([url?], [title?], [tabs?]) are [option].
    - A function that can throw a [TypeError] (a property read on [null] or
      [undefined], the destructuring of [undefined]) returns [option]:
      [None] is the exception. *)

From Stdlib Require Import ZArith List String Bool Lia Permutation Sorted.
Import ListNotations.

Set Implicit Arguments.
Open Scope string_scope.
Open Scope list_scope.

(** ** The exception monad *)

Definition bind {A B : Type} (c : option A) (k : A -> option B) : option B :=
  match c with
  | Some a => k a
  | None => None
  end.

Notation "x <- c ;; k" := (bind c (fun x => k))
  (at level 61, c at next level, right associativity).

Fixpoint mapM {A B : Type} (f : A -> option B) (l : list A) : option (list B) :=
  match l with
  | [] => Some []
  | x :: l' =>
      y <- f x ;;
      ys <- mapM f l' ;;
      Some (y :: ys)
  end.

(** ** Immutable.js: the operations of [Seq] and [Map] the program uses *)

Module Immutable.

(** [seq.findEntry(pred)]: the first [[index, value]] whose value passes
    the predicate, [undefined] (inner [None]) when there is none.  The
    predicate is run on the items in order and may throw. *)
Fixpoint findEntryFrom {A : Type} (pred : A -> option bool) (index : nat)
    (l : list A) : option (option (nat * A)) :=
  match l with
  | [] => Some None
  | v :: l' =>
      b <- pred v ;;
      if b then Some (Some (index, v)) else findEntryFrom pred (S index) l'
  end.

Definition findEntry {A : Type} (pred : A -> option bool) (l : list A)
    : option (option (nat * A)) :=
  findEntryFrom pred 0 l.

(** [seq.splice(index, removeNum, ...values)]:
    [slice(0, index).concat(values, slice(index + removeNum))]. *)
Definition splice {A : Type} (index removeNum : nat) (values l : list A)
    : list A :=
  firstn index l ++ values ++ skipn (index + removeNum) l.

(** [seq.sortBy(mapper)] with the default comparator.  The keys of all the
    items are computed first (a mapper that throws makes the sort throw);
    items with equal keys keep their relative order, since the library
    breaks ties by the original position. *)
Fixpoint insertByKey {A : Type} (k : Z) (v : A) (l : list (Z * A))
    : list (Z * A) :=
  match l with
  | [] => [(k, v)]
  | (k', v') :: l' =>
      if (k <=? k')%Z then (k, v) :: l else (k', v') :: insertByKey k v l'
  end.

Definition stableSort {A : Type} (l : list (Z * A)) : list (Z * A) :=
  fold_right (fun e acc => insertByKey (fst e) (snd e) acc) [] l.

Definition sortBy {A : Type} (mapper : A -> option Z) (l : list A)
    : option (list A) :=
  entries <- mapM (fun v => k <- mapper v ;; Some (k, v)) l ;;
  Some (map snd (stableSort entries)).

(** A [Map] (or [OrderedMap]) is a list of entries with distinct keys, in
    the order the keys were first set. *)
Section Maps.
Context {K V : Type} (eqb : K -> K -> bool).

Fixpoint get (k : K) (m : list (K * V)) : option V :=
  match m with
  | [] => None
  | (k', v) :: m' => if eqb k k' then Some v else get k m'
  end.

(** [map.update(k, NOT_SET, updater)]: the entry of an existing key is
    replaced where it is, a new key goes to the end. *)
Fixpoint update (k : K) (updater : option V -> V) (m : list (K * V))
    : list (K * V) :=
  match m with
  | [] => [(k, updater None)]
  | (k', v) :: m' =>
      if eqb k k' then (k', updater (Some v)) :: m'
      else (k', v) :: update k updater m'
  end.

(** [map.mergeWith(merger, other)]: every entry of [other] is set in the
    map, through [merger(existing, value)] when the key is there
    already. *)
Definition mergeWith (merger : V -> V -> option V) (m other : list (K * V))
    : option (list (K * V)) :=
  fold_left
    (fun acc entry =>
       collection <- acc ;;
       match get (fst entry) collection with
       | None => Some (update (fst entry) (fun _ => snd entry) collection)
       | Some existing =>
           merged <- merger existing (snd entry) ;;
           Some (update (fst entry) (fun _ => merged) collection)
       end)
    other (Some m).
End Maps.

(** [seq.groupBy(grouper)]: the groups in the order of their first item,
    each with its items in the order of the sequence. *)
Definition groupBy {K A : Type} (eqb : K -> K -> bool) (grouper : A -> K)
    (l : list A) : list (K * list A) :=
  fold_left
    (fun groups v =>
       update eqb (grouper v)
         (fun a => match a with
                   | None => [v]
                   | Some arr => arr ++ [v]
                   end)
         groups)
    l [].

(** [map.get(k, notSetValue)]. *)
Definition getOr {K V : Type} (eqb : K -> K -> bool) (k : K)
    (notSetValue : V) (m : list (K * V)) : V :=
  match get eqb k m with
  | Some v => v
  | None => notSetValue
  end.

(** [seq.find(pred)]: the value of the entry [findEntry] gives. *)
Definition find {A : Type} (pred : A -> option bool) (l : list A)
    : option (option A) :=
  entry <- findEntry pred l ;;
  Some (option_map snd entry).

(** [resolveBegin(index, size)]: a negative index counts from the end of
    the sequence and stops at its start, any other index stops at its
    end. *)
Definition resolveBegin (index : Z) (size : nat) : nat :=
  if (index <? 0)%Z then Z.to_nat (Z.max 0 (Z.of_nat size + index))
  else Nat.min size (Z.to_nat index).

(** [seq.splice(index, removeNum, ...values)] at an index that is a
    JavaScript number. *)
Definition spliceAt {A : Type} (index : Z) (removeNum : nat)
    (values l : list A) : list A :=
  splice (resolveBegin index (List.length l)) removeNum values l.

End Immutable.

(** ** The browser's values *)

(** A live tab: [{ id, url?, title?, favIconUrl?, active, index, audible }]. *)
Module Tab.
Record t := mk {
  id : Z;
  url : option string;
  title : option string;
  favIconUrl : option string;
  active : bool;
  index : Z;
  audible : bool
}.
End Tab.

(** A live window: [{ id, type, tabs? }]. *)
Module ChromeWindow.
Record t := mk {
  id : Z;
  type : string;
  tabs : option (list Tab.t)
}.
End ChromeWindow.

(** The values of the properties of a bookmark node. *)
Inductive JsValue :=
| JsUndefined
| JsNumber (n : Z)
| JsString (s : string).

(** A bookmark leaf: [{ id, index, title?, url? }]. *)
Module BookmarkTreeNode.
Record t := mk {
  id : string;
  index : Z;
  title : option string;
  url : option string
}.

(** [node[key]]: the properties a bookmark node has are [id], [index],
    [title] and [url]; any other property reads [undefined]. *)
Definition prop (node : t) (key : string) : JsValue :=
  if String.eqb key "id" then JsString (id node)
  else if String.eqb key "index" then JsNumber (index node)
  else if String.eqb key "title" then
    match title node with Some s => JsString s | None => JsUndefined end
  else if String.eqb key "url" then
    match url node with Some s => JsString s | None => JsUndefined end
  else JsUndefined.
End BookmarkTreeNode.

(** ** The records of [tabWindow.js] *)

(** Tab state that is persisted as a bookmark. *)
Module SavedTabState.
Record t := mk {
  bookmarkId : string;
  bookmarkIndex : Z;
  title : string;
  url : string
}.

(** The defaults of the record type. *)
Definition default : t :=
  {| bookmarkId := ""; bookmarkIndex := 0; title := ""; url := "" |}.

Definition stringOr (notSetValue : string) (v : JsValue) : string :=
  match v with JsString s => s | _ => notSetValue end.

Definition numberOr (notSetValue : Z) (v : JsValue) : Z :=
  match v with JsNumber n => n | _ => notSetValue end.

(** [new SavedTabState(values)]: each field of the record is read from the
    property of [values] that has the field's own name, and is the default
    when [values] has no such property. *)
Definition new (values : string -> JsValue) : t :=
  {| bookmarkId := stringOr (bookmarkId default) (values "bookmarkId");
     bookmarkIndex := numberOr (bookmarkIndex default) (values "bookmarkIndex");
     title := stringOr (title default) (values "title");
     url := stringOr (url default) (values "url") |}.
End SavedTabState.

(** Tab state associated with an open browser tab. *)
Module OpenTabState.
Record t := mk {
  url : string;
  openTabId : Z;
  active : bool;
  openTabIndex : Z;
  favIconUrl : option string;
  title : string;
  audible : bool
}.

Definition set_active (b : bool) (s : t) : t :=
  {| url := url s; openTabId := openTabId s; active := b;
     openTabIndex := openTabIndex s; favIconUrl := favIconUrl s;
     title := title s; audible := audible s |}.

(** [s.remove('active')]: back to the default, [false]. *)
Definition remove_active (s : t) : t := set_active false s.
End OpenTabState.

(** An item in a tabbed window: an open tab, a bookmark, or both. *)
Module TabItem.
Record t := mk {
  url : string;
  saved : bool;
  savedState : option SavedTabState.t;   (* SavedTabState iff saved *)
  open : bool;
  openState : option OpenTabState.t      (* OpenTabState iff open *)
}.

Definition set_saved (b : bool) (ti : t) : t :=
  {| url := url ti; saved := b; savedState := savedState ti;
     open := open ti; openState := openState ti |}.

Definition set_savedState (s : option SavedTabState.t) (ti : t) : t :=
  {| url := url ti; saved := saved ti; savedState := s;
     open := open ti; openState := openState ti |}.

Definition set_open (b : bool) (ti : t) : t :=
  {| url := url ti; saved := saved ti; savedState := savedState ti;
     open := b; openState := openState ti |}.

Definition set_openState (s : option OpenTabState.t) (ti : t) : t :=
  {| url := url ti; saved := saved ti; savedState := savedState ti;
     open := open ti; openState := s |}.

(** [ti.active]: the record has no field of that name, the read gives
    [undefined], which is falsy. *)
Definition active (ti : t) : bool := false.

(** The getter [title]: the title of the open tab when the item is open,
    of the bookmark otherwise. *)
Definition title (ti : t) : option string :=
  if open ti then
    openState' <- openState ti ;;
    Some (OpenTabState.title openState')
  else
    savedState' <- savedState ti ;;
    Some (SavedTabState.title savedState').
End TabItem.

(** A window: its saved and open facets and its items. *)
Module TabWindow.
(** [savedFolderId] is the number [-1] until a bookmark folder, whose id
    is a string, is attached. *)
Inductive folderId :=
| FolderNumber (n : Z)
| FolderString (s : string).

Record t := mk {
  saved : bool;
  savedTitle : string;
  savedFolderId : folderId;
  open : bool;
  openWindowId : Z;
  windowType : string;
  tabItems : list TabItem.t
}.

Definition default : t :=
  {| saved := false; savedTitle := ""; savedFolderId := FolderNumber (-1);
     open := false; openWindowId := (-1)%Z; windowType := "";
     tabItems := [] |}.

Definition set_saved (b : bool) (w : t) : t :=
  {| saved := b; savedTitle := savedTitle w;
     savedFolderId := savedFolderId w; open := open w;
     openWindowId := openWindowId w; windowType := windowType w;
     tabItems := tabItems w |}.

Definition set_savedTitle (s : string) (w : t) : t :=
  {| saved := saved w; savedTitle := s;
     savedFolderId := savedFolderId w; open := open w;
     openWindowId := openWindowId w; windowType := windowType w;
     tabItems := tabItems w |}.

Definition set_savedFolderId (f : folderId) (w : t) : t :=
  {| saved := saved w; savedTitle := savedTitle w;
     savedFolderId := f; open := open w;
     openWindowId := openWindowId w; windowType := windowType w;
     tabItems := tabItems w |}.

Definition set_open (b : bool) (w : t) : t :=
  {| saved := saved w; savedTitle := savedTitle w;
     savedFolderId := savedFolderId w; open := b;
     openWindowId := openWindowId w; windowType := windowType w;
     tabItems := tabItems w |}.

Definition set_openWindowId (n : Z) (w : t) : t :=
  {| saved := saved w; savedTitle := savedTitle w;
     savedFolderId := savedFolderId w; open := open w;
     openWindowId := n; windowType := windowType w;
     tabItems := tabItems w |}.

Definition set_windowType (s : string) (w : t) : t :=
  {| saved := saved w; savedTitle := savedTitle w;
     savedFolderId := savedFolderId w; open := open w;
     openWindowId := openWindowId w; windowType := s;
     tabItems := tabItems w |}.

Definition set_tabItems (l : list TabItem.t) (w : t) : t :=
  {| saved := saved w; savedTitle := savedTitle w;
     savedFolderId := savedFolderId w; open := open w;
     openWindowId := openWindowId w; windowType := windowType w;
     tabItems := l |}.
End TabWindow.

(** ** lodash *)

(** [_.get(object, path, defaultValue)] on an optional property. *)
Definition lodash_get {A : Type} (property : option A) (defaultValue : A) : A :=
  match property with
  | Some v => v
  | None => defaultValue
  end.

(** ** The functions of [tabWindow.js] *)

(** Initialize saved tab state from a bookmark. *)
Definition makeSavedTabState (bm : BookmarkTreeNode.t) : SavedTabState.t :=
  let url := lodash_get (BookmarkTreeNode.url bm) "" in
  {| SavedTabState.url := url;
     SavedTabState.title := lodash_get (BookmarkTreeNode.title bm) url;
     SavedTabState.bookmarkId := BookmarkTreeNode.id bm;
     SavedTabState.bookmarkIndex := BookmarkTreeNode.index bm |}.

(** Initialize a TabItem from a bookmark; the item is closed. *)
Definition makeBookmarkedTabItem (bm : BookmarkTreeNode.t) : TabItem.t :=
  let savedState := makeSavedTabState bm in
  {| TabItem.url := SavedTabState.url savedState;
     TabItem.saved := true;
     TabItem.savedState := Some savedState;
     TabItem.open := false;
     TabItem.openState := None |}.

(** Initialize OpenTabState from a browser tab. *)
Definition makeOpenTabState (tab : Tab.t) : OpenTabState.t :=
  let url := lodash_get (Tab.url tab) "" in
  {| OpenTabState.url := url;
     OpenTabState.audible := Tab.audible tab;
     OpenTabState.favIconUrl := Tab.favIconUrl tab;
     OpenTabState.title := lodash_get (Tab.title tab) url;
     OpenTabState.openTabId := Tab.id tab;
     OpenTabState.active := Tab.active tab;
     OpenTabState.openTabIndex := Tab.index tab |}.

(** Initialize a TabItem from an open Chrome tab. *)
Definition makeOpenTabItem (tab : Tab.t) : TabItem.t :=
  let openState := makeOpenTabState tab in
  {| TabItem.url := OpenTabState.url openState;
     TabItem.saved := false;
     TabItem.savedState := None;
     TabItem.open := true;
     TabItem.openState := Some openState |}.

(** The base saved state of a tab item (no open tab info):
    [ti.remove('open').remove('openState')]. *)
Definition resetSavedItem (ti : TabItem.t) : TabItem.t :=
  TabItem.set_openState None (TabItem.set_open false ti).

(** Reset a window to its base saved state (after the window is closed). *)
Definition removeOpenWindowState (tabWindow : TabWindow.t) : TabWindow.t :=
  let savedItems := filter TabItem.saved (TabWindow.tabItems tabWindow) in
  let resetSavedItems := map resetSavedItem savedItems in
  TabWindow.set_tabItems resetSavedItems
    (TabWindow.set_windowType (TabWindow.windowType TabWindow.default)
       (TabWindow.set_openWindowId (TabWindow.openWindowId TabWindow.default)
          (TabWindow.set_open (TabWindow.open TabWindow.default) tabWindow))).

(** Remove any saved state, keeping only open tab and window state. *)
Definition removeSavedWindowState (tabWindow : TabWindow.t) : TabWindow.t :=
  TabWindow.set_savedTitle (TabWindow.savedTitle TabWindow.default)
    (TabWindow.set_savedFolderId (TabWindow.savedFolderId TabWindow.default)
       (TabWindow.set_saved (TabWindow.saved TabWindow.default) tabWindow)).

(** Initialize a TabWindow from an open Chrome window. *)
Definition makeChromeTabWindow (chromeWindow : ChromeWindow.t) : TabWindow.t :=
  let chromeTabs := match ChromeWindow.tabs chromeWindow with
                    | Some tabs => tabs
                    | None => []
                    end in
  let tabItems := map makeOpenTabItem chromeTabs in
  {| TabWindow.saved := TabWindow.saved TabWindow.default;
     TabWindow.savedTitle := TabWindow.savedTitle TabWindow.default;
     TabWindow.savedFolderId := TabWindow.savedFolderId TabWindow.default;
     TabWindow.open := true;
     TabWindow.openWindowId := ChromeWindow.id chromeWindow;
     TabWindow.windowType := ChromeWindow.type chromeWindow;
     TabWindow.tabItems := tabItems |}.

(** The keys [sortBy] is given in [mergeOpenTabs]. *)
Definition openTabIndexOf (ti : TabItem.t) : option Z :=
  openState <- TabItem.openState ti ;;
  Some (OpenTabState.openTabIndex openState).

Definition bookmarkIndexOf (ti : TabItem.t) : option Z :=
  savedState <- TabItem.savedState ti ;;
  Some (SavedTabState.bookmarkIndex savedState).

Section Reconciliation.

(** [Immutable.Map] is a hashed map: the order in which it yields its
    entries is the order of insertion for a few keys and follows the
    hashes of the keys beyond that.  The order is a parameter of the
    reconciliation; all that is known of it is that it permutes the
    entries. *)
Variable iterationOrder :
  list (string * list TabItem.t) -> list (string * list TabItem.t).

(** The merger of [getOpenTabInfo]: every open item of a URL takes the
    saved state of the first saved item of that URL.  The sequence is
    mapped lazily: [savedItem] is read once per open item. *)
Definition mergeTabItems (openItems mergeSavedItems : list TabItem.t)
    : option (list TabItem.t) :=
  let savedItem := hd_error mergeSavedItems in
  mapM (fun openItem =>
          savedItem' <- savedItem ;;
          Some (TabItem.set_savedState (TabItem.savedState savedItem')
                  (TabItem.set_saved true openItem)))
       openItems.

(** Gather open tab items and the non-open saved tab items from the open
    tabs and the tab items, by URL matching. *)
Definition getOpenTabInfo (tabItems : list TabItem.t) (openTabs : list Tab.t)
    : option (list (bool * list TabItem.t)) :=
  let chromeOpenTabItems := map makeOpenTabItem openTabs in
  let openUrlMap := Immutable.groupBy String.eqb TabItem.url chromeOpenTabItems in
  let savedItems := filter TabItem.saved tabItems in
  let baseSavedItems := map resetSavedItem savedItems in
  let savedUrlMap := Immutable.groupBy String.eqb TabItem.url baseSavedItems in
  mergedMap <- Immutable.mergeWith String.eqb mergeTabItems openUrlMap savedUrlMap ;;
  let partitionedMap :=
    Immutable.groupBy Bool.eqb TabItem.open
      (flat_map snd (iterationOrder mergedMap)) in
  Some partitionedMap.

(** Merge the currently open tabs of a Chrome window with the tab items
    of a tab window: the open items by tab index, then the closed items by
    bookmark index. *)
Definition mergeOpenTabs (tabItems : list TabItem.t) (openTabs : list Tab.t)
    : option (list TabItem.t) :=
  tabInfo <- getOpenTabInfo tabItems openTabs ;;
  openTabItems <-
    Immutable.sortBy openTabIndexOf (Immutable.getOr Bool.eqb true [] tabInfo) ;;
  closedTabItems <-
    Immutable.sortBy bookmarkIndexOf (Immutable.getOr Bool.eqb false [] tabInfo) ;;
  let mergedTabItems := openTabItems ++ closedTabItems in
  Some mergedTabItems.

(** Update a TabWindow from a current snapshot of the Chrome window.
    [chromeWindow.tabs] is passed on as it is: without a tab list,
    [openTabs.map] throws. *)
Definition updateWindow (tabWindow : TabWindow.t) (chromeWindow : ChromeWindow.t)
    : option TabWindow.t :=
  openTabs <- ChromeWindow.tabs chromeWindow ;;
  mergedTabItems <- mergeOpenTabs (TabWindow.tabItems tabWindow) openTabs ;;
  let updWindow :=
    TabWindow.set_openWindowId (ChromeWindow.id chromeWindow)
      (TabWindow.set_open true
         (TabWindow.set_windowType (ChromeWindow.type chromeWindow)
            (TabWindow.set_tabItems mergedTabItems tabWindow))) in
  Some updWindow.

End Reconciliation.

(** [(ti) => ti.open && ti.openState.openTabId === tabId] *)
Definition isOpenTabWithId (tabId : Z) (ti : TabItem.t) : option bool :=
  if TabItem.open ti then
    openState <- TabItem.openState ti ;;
    Some (OpenTabState.openTabId openState =? tabId)%Z
  else Some false.

(** [(ti) => ti.open && ti.openState.active] *)
Definition isActiveOpenTab (ti : TabItem.t) : option bool :=
  if TabItem.open ti then
    openState <- TabItem.openState ti ;;
    Some (OpenTabState.active openState)
  else Some false.

(** Handle a tab that has been closed. *)
Definition closeTab (tabWindow : TabWindow.t) (tabId : Z) : option TabWindow.t :=
  entry <- Immutable.findEntry (isOpenTabWithId tabId) (TabWindow.tabItems tabWindow) ;;
  match entry with
  | None => Some tabWindow
  | Some (index, tabItem) =>
      let updItems :=
        if TabItem.saved tabItem then
          let updTabItem := resetSavedItem tabItem in
          Immutable.splice index 1 [updTabItem] (TabWindow.tabItems tabWindow)
        else
          Immutable.splice index 1 [] (TabWindow.tabItems tabWindow) in
      Some (TabWindow.set_tabItems updItems tabWindow)
  end.

(** Update a tab's saved state.  The entry that is looked up is
    destructured without a test, and the saved state is the record
    constructor applied to the bookmark node itself. *)
Definition saveTab (tabWindow : TabWindow.t) (tabItem : TabItem.t)
    (tabNode : BookmarkTreeNode.t) : option TabWindow.t :=
  entry <-
    Immutable.findEntry
      (fun ti =>
         if TabItem.open ti then
           openState <- TabItem.openState ti ;;
           openState' <- TabItem.openState tabItem ;;
           Some (OpenTabState.openTabId openState
                 =? OpenTabState.openTabId openState')%Z
         else Some false)
      (TabWindow.tabItems tabWindow) ;;
  entry' <- entry ;;
  let index := fst entry' in
  let savedState := SavedTabState.new (BookmarkTreeNode.prop tabNode) in
  let updTabItem :=
    TabItem.set_savedState (Some savedState) (TabItem.set_saved true tabItem) in
  let updItems :=
    Immutable.splice index 1 [updTabItem] (TabWindow.tabItems tabWindow) in
  Some (TabWindow.set_tabItems updItems tabWindow).

(** Set the active tab in a window to the tab with the given id. *)
Definition setActiveTab (tabWindow : TabWindow.t) (tabId : Z) : option TabWindow.t :=
  tabPos <- Immutable.findEntry (isOpenTabWithId tabId) (TabWindow.tabItems tabWindow) ;;
  match tabPos with
  | None => Some tabWindow
  | Some (index, tabItem) =>
      if TabItem.active tabItem then Some tabWindow
      else
        prevPos <- Immutable.findEntry isActiveOpenTab (TabWindow.tabItems tabWindow) ;;
        nonActiveItems <-
          match prevPos with
          | Some (prevIndex, prevActiveTab) =>
              prevOpenState <- TabItem.openState prevActiveTab ;;
              let updPrevOpenState := OpenTabState.remove_active prevOpenState in
              let updPrevActiveTab :=
                TabItem.set_openState (Some updPrevOpenState) prevActiveTab in
              Some (Immutable.splice prevIndex 1 [updPrevActiveTab]
                      (TabWindow.tabItems tabWindow))
          | None => Some (TabWindow.tabItems tabWindow)
          end ;;
        openState <- TabItem.openState tabItem ;;
        let updOpenState := OpenTabState.set_active true openState in
        let updActiveTab := TabItem.set_openState (Some updOpenState) tabItem in
        let updItems := Immutable.splice index 1 [updActiveTab] nonActiveItems in
        Some (TabWindow.set_tabItems updItems tabWindow)
  end.

(** A run of [setActiveTab] calls, each on the window the one before
    returned. *)
Definition setActiveTabs (tabWindow : TabWindow.t) (tabIds : list Z)
    : option TabWindow.t :=
  fold_left (fun acc tabId => w <- acc ;; setActiveTab w tabId)
            tabIds (Some tabWindow).

(** ** The other functions of [tabWindow.js] *)

(** A bookmark folder: [{ id, title?, children? }]. *)
Module BookmarkFolder.
Record t := mk {
  id : string;
  title : option string;
  children : option (list BookmarkTreeNode.t)
}.
End BookmarkFolder.

(** The base state of an open tab (no saved tab info):
    [ti.remove('saved').remove('savedState')]. *)
Definition resetOpenItem (ti : TabItem.t) : TabItem.t :=
  TabItem.set_savedState None (TabItem.set_saved false ti).

(** [computeTitle()] of a TabWindow: the saved title of a saved window,
    else the title of the active tab, else of the first open tab, else the
    empty string.  The getter [title] keeps the first value it computes on
    the instance, and no function here changes an instance. *)
Definition computeTitle (tabWindow : TabWindow.t) : option string :=
  if TabWindow.saved tabWindow then Some (TabWindow.savedTitle tabWindow)
  else
    activeTab <- Immutable.find isActiveOpenTab (TabWindow.tabItems tabWindow) ;;
    match activeTab with
    | None =>
        openTabItem <-
          Immutable.find (fun t => Some (TabItem.open t))
            (TabWindow.tabItems tabWindow) ;;
        match openTabItem with
        | None => Some ""
        | Some openTabItem' => TabItem.title openTabItem'
        end
    | Some activeTab' => TabItem.title activeTab'
    end.

(** The getter [openTabCount]. *)
Definition openTabCount (tabWindow : TabWindow.t) : nat :=
  List.length (filter TabItem.open (TabWindow.tabItems tabWindow)).

(** Initialize an unopened TabWindow from a bookmarks folder.  The
    children that have a [url] property are the bookmarks. *)
Definition makeFolderTabWindow (bookmarkFolder : BookmarkFolder.t)
    : option TabWindow.t :=
  children <- BookmarkFolder.children bookmarkFolder ;;
  let itemChildren :=
    filter (fun node => match BookmarkTreeNode.url node with
                        | Some _ => true
                        | None => false
                        end)
           children in
  let tabItems := map makeBookmarkedTabItem itemChildren in
  fallbackTitle <-
    match BookmarkFolder.title bookmarkFolder with
    | None =>
        match tabItems with
        | first :: _ => TabItem.title first
        | [] => Some ""
        end
    | Some _ => Some ""
    end ;;
  let tabWindow :=
    {| TabWindow.saved := true;
       TabWindow.savedTitle :=
         lodash_get (BookmarkFolder.title bookmarkFolder) fallbackTitle;
       TabWindow.savedFolderId :=
         TabWindow.FolderString (BookmarkFolder.id bookmarkFolder);
       TabWindow.open := TabWindow.open TabWindow.default;
       TabWindow.openWindowId := TabWindow.openWindowId TabWindow.default;
       TabWindow.windowType := TabWindow.windowType TabWindow.default;
       TabWindow.tabItems := tabItems |} in
  Some tabWindow.

(** [(ti) => ti.saved && ti.savedState.bookmarkId === bookmarkId] *)
Definition isSavedTabWithId (bookmarkId : string) (ti : TabItem.t)
    : option bool :=
  if TabItem.saved ti then
    savedState <- TabItem.savedState ti ;;
    Some (String.eqb (SavedTabState.bookmarkId savedState) bookmarkId)
  else Some false.

(** Update a tab's saved state when the tab has been unsaved (its bookmark
    removed).  The entry that is looked up is destructured without a
    test. *)
Definition unsaveTab (tabWindow : TabWindow.t) (tabItem : TabItem.t)
    : option TabWindow.t :=
  entry <-
    Immutable.findEntry
      (fun ti =>
         if TabItem.saved ti then
           savedState <- TabItem.savedState ti ;;
           savedState' <- TabItem.savedState tabItem ;;
           Some (String.eqb (SavedTabState.bookmarkId savedState)
                            (SavedTabState.bookmarkId savedState'))
         else Some false)
      (TabWindow.tabItems tabWindow) ;;
  entry' <- entry ;;
  let index := fst entry' in
  let updTabItem := resetOpenItem tabItem in
  let updItems :=
    if TabItem.open updTabItem then
      Immutable.splice index 1 [updTabItem] (TabWindow.tabItems tabWindow)
    else
      Immutable.splice index 1 [] (TabWindow.tabItems tabWindow) in
  Some (TabWindow.set_tabItems updItems tabWindow).

(** Update a tab item of a TabWindow to the latest state of the Chrome
    tab, which may be a new tab. *)
Definition updateTabItem (tabWindow : TabWindow.t) (tab : Tab.t)
    : option TabWindow.t :=
  let tabItem := makeOpenTabItem tab in
  tabPos <-
    Immutable.findEntry (isOpenTabWithId (Tab.id tab))
      (TabWindow.tabItems tabWindow) ;;
  let updItems :=
    match tabPos with
    | None =>
        Immutable.spliceAt (Tab.index tab) 0 [tabItem]
          (TabWindow.tabItems tabWindow)
    | Some (index, _) =>
        Immutable.splice index 1 [tabItem] (TabWindow.tabItems tabWindow)
    end in
  Some (TabWindow.set_tabItems updItems tabWindow).

(** * The vocabulary of the properties *)

(** Entries in the order of their keys, and items in the order of the keys
    a mapper gives them. *)
Definition keyOrder {A : Type} (e1 e2 : Z * A) : Prop := (fst e1 <= fst e2)%Z.

Definition ascending {A : Type} (mapper : A -> option Z) (a b : A) : Prop :=
  exists ka kb, mapper a = Some ka /\ mapper b = Some kb /\ (ka <= kb)%Z.

(** The items of a sequence that a grouper sends to a key. *)
Definition group {K A : Type} (eqb : K -> K -> bool) (grouper : A -> K)
    (k : K) (l : list A) : list A :=
  filter (fun v => eqb k (grouper v)) l.

(** The group of a key after more items were added. *)
Definition extend {A : Type} (o : option (list A)) (g : list A)
    : option (list A) :=
  match g, o with
  | [], _ => o
  | _ :: _, None => Some g
  | _ :: _, Some arr => Some (arr ++ g)
  end.

(** The entry of a key in a merge of two maps. *)
Definition merged {V : Type} (g : V -> V -> V) (o o' : option V) : option V :=
  match o, o' with
  | Some v, Some v' => Some (g v v')
  | Some v, None => Some v
  | None, _ => o'
  end.

(** The first saved item of a URL in a sequence of tab items. *)
Definition firstSavedAt (url : string) (tabItems : list TabItem.t)
    : option TabItem.t :=
  find (fun ti => TabItem.saved ti && String.eqb url (TabItem.url ti)) tabItems.

(** What the reconciliation makes of a live tab: its open item, with the
    saved state of the first saved item of its URL when there is one. *)
Definition reconciledOpenItem (tabItems : list TabItem.t) (tab : Tab.t)
    : TabItem.t :=
  let openItem := makeOpenTabItem tab in
  match firstSavedAt (TabItem.url openItem) tabItems with
  | Some savedItem =>
      TabItem.set_savedState (TabItem.savedState savedItem)
        (TabItem.set_saved true openItem)
  | None => openItem
  end.

(** The record invariants [savedState: SavedTabState iff saved] and
    [openState: OpenTabState iff open], in the direction the code reads. *)
Definition savedStateOk (ti : TabItem.t) : Prop :=
  TabItem.saved ti = true -> TabItem.savedState ti <> None.

Definition openStateOk (ti : TabItem.t) : Prop :=
  TabItem.open ti = true -> TabItem.openState ti <> None.

(** The three parts of the ordering contract of a sequence of tab items. *)
Definition openBeforeClosed (l : list TabItem.t) : Prop :=
  forall i j a b,
    nth_error l i = Some a -> nth_error l j = Some b ->
    TabItem.open a = true -> TabItem.open b = false -> (i < j)%nat.

Definition openAscending (l : list TabItem.t) : Prop :=
  forall i j a b,
    (i < j)%nat -> nth_error l i = Some a -> nth_error l j = Some b ->
    TabItem.open a = true -> TabItem.open b = true ->
    exists oa ob,
      TabItem.openState a = Some oa /\ TabItem.openState b = Some ob /\
      (OpenTabState.openTabIndex oa <= OpenTabState.openTabIndex ob)%Z.

Definition closedAscending (l : list TabItem.t) : Prop :=
  forall i j a b,
    (i < j)%nat -> nth_error l i = Some a -> nth_error l j = Some b ->
    TabItem.open a = false -> TabItem.open b = false ->
    exists sa sb,
      TabItem.savedState a = Some sa /\ TabItem.savedState b = Some sb /\
      (SavedTabState.bookmarkIndex sa <= SavedTabState.bookmarkIndex sb)%Z.

(** How [mergeTabItems] acts on groups that are not empty. *)
Definition mergeGroups (openItems mergeSavedItems : list TabItem.t)
    : list TabItem.t :=
  match mergeSavedItems with
  | savedItem :: _ =>
      map (fun openItem =>
             TabItem.set_savedState (TabItem.savedState savedItem)
               (TabItem.set_saved true openItem))
          openItems
  | [] => openItems
  end.

(** An item of the reconciliation of [tabItems] with [openTabs]. *)
Definition reconciled (tabItems : list TabItem.t) (openTabs : list Tab.t)
    (x : TabItem.t) : Prop :=
  (exists tab, In tab openTabs /\ x = reconciledOpenItem tabItems tab) \/
  (exists ti, In ti tabItems /\ TabItem.saved ti = true /\
              (forall tab, In tab openTabs ->
                           TabItem.url (makeOpenTabItem tab) <> TabItem.url ti) /\
              x = resetSavedItem ti).

(** An item that is open and whose open state is active, and how many
    there are in a sequence. *)
Definition isActiveOpen (ti : TabItem.t) : bool :=
  TabItem.open ti &&
  match TabItem.openState ti with
  | Some openState => OpenTabState.active openState
  | None => false
  end.

Definition activeCount (l : list TabItem.t) : nat :=
  List.length (filter isActiveOpen l).

(** An open item whose open state has the given tab id. *)
Definition matchesOpenTabId (tabId : Z) (ti : TabItem.t) : Prop :=
  TabItem.open ti = true /\
  exists openState,
    TabItem.openState ti = Some openState /\
    OpenTabState.openTabId openState = tabId.

(** Sample values: a bookmark, two live tabs, their window, and the
    iteration order of a small map, which is the order of insertion. *)
Module Sample.
Definition bookmarkA : BookmarkTreeNode.t :=
  {| BookmarkTreeNode.id := "17"; BookmarkTreeNode.index := 0;
     BookmarkTreeNode.title := Some "A";
     BookmarkTreeNode.url := Some "https://a.com" |}.

Definition bookmarkB : BookmarkTreeNode.t :=
  {| BookmarkTreeNode.id := "42"; BookmarkTreeNode.index := 3;
     BookmarkTreeNode.title := Some "B";
     BookmarkTreeNode.url := Some "https://b.com" |}.

Definition tabA : Tab.t :=
  {| Tab.id := 7; Tab.url := Some "https://a.com"; Tab.title := Some "A";
     Tab.favIconUrl := None; Tab.active := true; Tab.index := 0;
     Tab.audible := false |}.

Definition tabB : Tab.t :=
  {| Tab.id := 8; Tab.url := Some "https://b.com"; Tab.title := Some "B";
     Tab.favIconUrl := None; Tab.active := false; Tab.index := 1;
     Tab.audible := false |}.

Definition savedA : TabItem.t := makeBookmarkedTabItem bookmarkA.

Definition liveWindow : ChromeWindow.t :=
  {| ChromeWindow.id := 1; ChromeWindow.type := "normal";
     ChromeWindow.tabs := Some [tabA; tabB] |}.

Definition window : TabWindow.t := makeChromeTabWindow liveWindow.

(** The item of [tabA] once it is bookmarked as [bookmarkA], and a window
    that holds it. *)
Definition openSavedA : TabItem.t :=
  TabItem.set_savedState (Some (makeSavedTabState bookmarkA))
    (TabItem.set_saved true (makeOpenTabItem tabA)).

Definition savedWindow : TabWindow.t :=
  TabWindow.set_tabItems [openSavedA; makeOpenTabItem tabB] window.

Definition insertionOrder (m : list (string * list TabItem.t))
    : list (string * list TabItem.t) := m.
End Sample.

(** A saved item whose URL no live tab has. *)
Definition unmatched (openTabs : list Tab.t) (ti : TabItem.t) : bool :=
  TabItem.saved ti &&
  negb (existsb (fun tab =>
                   String.eqb (TabItem.url ti)
                     (TabItem.url (makeOpenTabItem tab)))
                openTabs).

(** The items the reconciliation is made of, in the order of the inputs:
    one per live tab, then the saved items whose URL no live tab has. *)
Definition reconciliation (tabItems : list TabItem.t) (openTabs : list Tab.t)
    : list TabItem.t :=
  map (reconciledOpenItem tabItems) openTabs
  ++ map resetSavedItem (filter (unmatched openTabs) tabItems).

(** An item with a facet at least, saved or open. *)
Definition hasFacet (ti : TabItem.t) : Prop :=
  TabItem.saved ti = true \/ TabItem.open ti = true.

(** A saved item whose saved state has the given bookmark id. *)
Definition matchesBookmarkId (bookmarkId : string) (ti : TabItem.t) : Prop :=
  TabItem.saved ti = true /\
  exists savedState,
    TabItem.savedState ti = Some savedState /\
    SavedTabState.bookmarkId savedState = bookmarkId.

(** The title a bookmark gives its item: its own, or its URL. *)
Definition bookmarkTitle (bm : BookmarkTreeNode.t) : string :=
  lodash_get (BookmarkTreeNode.title bm)
    (lodash_get (BookmarkTreeNode.url bm) "").

(** The title an open tab gives its item: its own, or its URL. *)
Definition tabTitle (tab : Tab.t) : string :=
  lodash_get (Tab.title tab) (lodash_get (Tab.url tab) "").

(** * Properties *)

(** ** The exception monad *)

Lemma bind_Some {A B : Type} (c : option A) (k : A -> option B) (b : B) :
  bind c k = Some b <-> exists a, c = Some a /\ k a = Some b.
Proof.
  destruct c as [a|]; simpl; split.
  - intros H. exists a. split; [reflexivity | exact H].
  - intros [a' [Ha Hk]]. injection Ha as ->. exact Hk.
  - discriminate.
  - intros [a' [Ha _]]. discriminate.
Qed.

Lemma mapM_Some {A B : Type} (f : A -> option B) (g : A -> B) (l : list A) :
  Forall (fun x => f x = Some (g x)) l -> mapM f l = Some (map g l).
Proof.
  induction 1 as [|x l Hx _ IH]; simpl.
  - reflexivity.
  - rewrite Hx, IH. reflexivity.
Qed.

Lemma mapM_inv {A B : Type} (f : A -> option B) (l : list A) (r : list B) :
  mapM f l = Some r -> Forall2 (fun x y => f x = Some y) l r.
Proof.
  revert r. induction l as [|x l IH]; simpl; intros r H.
  - injection H as <-. constructor.
  - apply bind_Some in H. destruct H as [y [Hy H]].
    apply bind_Some in H. destruct H as [ys [Hys H]].
    injection H as <-. constructor; [exact Hy | apply IH, Hys].
Qed.

Lemma mapM_total {A B : Type} (f : A -> option B) (l : list A) :
  Forall (fun x => f x <> None) l -> exists r, mapM f l = Some r.
Proof.
  induction 1 as [|x l Hx _ [r IH]]; simpl.
  - exists []. reflexivity.
  - destruct (f x) as [y|]; [|contradiction]. simpl.
    rewrite IH. simpl. exists (y :: r). reflexivity.
Qed.

(** ** [findEntry] and [splice] *)

Section FindEntry.
Context {A : Type} (pred : A -> option bool).

Lemma findEntryFrom_found (pre post : list A) (x : A) (n : nat) :
  Forall (fun y => pred y = Some false) pre ->
  pred x = Some true ->
  Immutable.findEntryFrom pred n (pre ++ x :: post)
  = Some (Some (n + List.length pre, x))%nat.
Proof.
  intros Hpre Hx. revert n.
  induction Hpre as [|y pre Hy _ IH]; intros n; simpl.
  - rewrite Hx. simpl. rewrite Nat.add_0_r. reflexivity.
  - rewrite Hy. simpl. rewrite IH. do 3 f_equal. lia.
Qed.

Lemma findEntryFrom_missing (l : list A) (n : nat) :
  Forall (fun y => pred y = Some false) l ->
  Immutable.findEntryFrom pred n l = Some None.
Proof.
  intros Hl. revert n.
  induction Hl as [|y l Hy _ IH]; intros n; simpl.
  - reflexivity.
  - rewrite Hy. simpl. apply IH.
Qed.

Lemma findEntryFrom_inv (l : list A) (n i : nat) (x : A) :
  Immutable.findEntryFrom pred n l = Some (Some (i, x)) ->
  exists pre post,
    l = pre ++ x :: post /\ i = (n + List.length pre)%nat /\
    Forall (fun y => pred y = Some false) pre /\ pred x = Some true.
Proof.
  revert n. induction l as [|y l IH]; simpl; intros n H.
  - discriminate.
  - apply bind_Some in H. destruct H as [b [Hy H]]. destruct b.
    + injection H as <- <-. exists [], l. simpl.
      repeat split; [lia | constructor | exact Hy].
    + destruct (IH _ H) as [pre [post [-> [-> [Hpre Hx]]]]].
      exists (y :: pre), post. simpl.
      repeat split; [lia | constructor; assumption | exact Hx].
Qed.

Lemma findEntryFrom_missing_inv (l : list A) (n : nat) :
  Immutable.findEntryFrom pred n l = Some None ->
  Forall (fun y => pred y = Some false) l.
Proof.
  revert n. induction l as [|y l IH]; simpl; intros n H.
  - constructor.
  - apply bind_Some in H. destruct H as [b [Hy H]]. destruct b.
    + discriminate.
    + constructor; [exact Hy | eapply IH, H].
Qed.

Lemma findEntry_found (pre post : list A) (x : A) :
  Forall (fun y => pred y = Some false) pre ->
  pred x = Some true ->
  Immutable.findEntry pred (pre ++ x :: post) = Some (Some (List.length pre, x)).
Proof.
  intros Hpre Hx. unfold Immutable.findEntry.
  rewrite findEntryFrom_found by assumption. reflexivity.
Qed.

Lemma findEntry_inv (l : list A) (i : nat) (x : A) :
  Immutable.findEntry pred l = Some (Some (i, x)) ->
  exists pre post,
    l = pre ++ x :: post /\ i = List.length pre /\
    Forall (fun y => pred y = Some false) pre /\ pred x = Some true.
Proof.
  intros H. apply findEntryFrom_inv in H.
  destruct H as [pre [post [Hl [Hi H]]]]. exists pre, post. auto.
Qed.

(** Without exceptions the search always has an outcome. *)
Lemma findEntry_total (l : list A) :
  Forall (fun y => pred y <> None) l ->
  exists entry, Immutable.findEntry pred l = Some entry.
Proof.
  unfold Immutable.findEntry. generalize 0%nat.
  intros n Hl. revert n.
  induction Hl as [|y l Hy _ IH]; intros n; simpl.
  - eexists. reflexivity.
  - destruct (pred y) as [[|]|]; simpl.
    + eexists. reflexivity.
    + apply IH.
    + contradiction.
Qed.
End FindEntry.

Lemma splice_at {A : Type} (pre post values : list A) (x : A) :
  Immutable.splice (List.length pre) 1 values (pre ++ x :: post)
  = pre ++ values ++ post.
Proof.
  unfold Immutable.splice.
  rewrite firstn_app, firstn_all, Nat.sub_diag, firstn_O, app_nil_r.
  rewrite skipn_app, skipn_all2 by lia.
  replace (List.length pre + 1 - List.length pre)%nat with 1%nat by lia.
  reflexivity.
Qed.

(** ** [sortBy] *)

Section Sorting.
Context {A : Type}.

Lemma insertByKey_perm (k : Z) (v : A) (l : list (Z * A)) :
  Permutation (Immutable.insertByKey k v l) ((k, v) :: l).
Proof.
  induction l as [|[k' v'] l IH]; simpl.
  - apply Permutation_refl.
  - destruct (k <=? k')%Z.
    + apply Permutation_refl.
    + eapply perm_trans; [apply perm_skip, IH | apply perm_swap].
Qed.

Lemma insertByKey_sorted (k : Z) (v : A) (l : list (Z * A)) :
  StronglySorted keyOrder l ->
  StronglySorted keyOrder (Immutable.insertByKey k v l).
Proof.
  induction 1 as [|[k' v'] l Hl IH Hall]; simpl.
  - repeat constructor.
  - destruct (Z.leb_spec k k') as [Hle|Hgt].
    + constructor.
      * constructor; assumption.
      * constructor; [exact Hle|].
        eapply Forall_impl; [|exact Hall].
        intros e He. unfold keyOrder in *. simpl in *. lia.
    + constructor; [exact IH|].
      eapply Permutation_Forall.
      * apply Permutation_sym, insertByKey_perm.
      * constructor; [unfold keyOrder; simpl; lia | exact Hall].
Qed.

Lemma stableSort_perm (l : list (Z * A)) :
  Permutation (Immutable.stableSort l) l.
Proof.
  induction l as [|[k v] l IH]; simpl.
  - constructor.
  - eapply perm_trans; [apply insertByKey_perm | apply perm_skip, IH].
Qed.

Lemma stableSort_sorted (l : list (Z * A)) :
  StronglySorted keyOrder (Immutable.stableSort l).
Proof.
  induction l as [|[k v] l IH]; simpl.
  - constructor.
  - apply insertByKey_sorted, IH.
Qed.

Variable mapper : A -> option Z.

Lemma sortBy_entries (l : list A) (entries : list (Z * A)) :
  mapM (fun v => k <- mapper v ;; Some (k, v)) l = Some entries ->
  map snd entries = l /\ Forall (fun e => mapper (snd e) = Some (fst e)) entries.
Proof.
  intros H. apply mapM_inv in H.
  induction H as [|x e l entries Hx _ [IH1 IH2]]; simpl.
  - split; constructor.
  - apply bind_Some in Hx. destruct Hx as [k [Hk Hx]]. injection Hx as <-.
    simpl. split; [f_equal; exact IH1 | constructor; assumption].
Qed.

Lemma sorted_entries (entries : list (Z * A)) :
  StronglySorted keyOrder entries ->
  Forall (fun e => mapper (snd e) = Some (fst e)) entries ->
  StronglySorted (ascending mapper) (map snd entries).
Proof.
  induction 1 as [|e entries _ IH Hall]; simpl; intros Hkeys.
  - constructor.
  - inversion Hkeys as [|? ? He Hrest]; subst.
    constructor; [apply IH, Hrest|].
    apply Forall_map. rewrite Forall_forall in *.
    intros e' Hin. exists (fst e), (fst e').
    repeat split; [exact He | apply Hrest, Hin | apply Hall, Hin].
Qed.

Lemma sortBy_inv (l r : list A) :
  Immutable.sortBy mapper l = Some r ->
  Permutation r l /\ StronglySorted (ascending mapper) r.
Proof.
  unfold Immutable.sortBy. intros H.
  apply bind_Some in H. destruct H as [entries [He H]]. injection H as <-.
  apply sortBy_entries in He. destruct He as [Hl Hkeys]. split.
  - rewrite <- Hl. apply Permutation_map, stableSort_perm.
  - apply sorted_entries; [apply stableSort_sorted|].
    eapply Permutation_Forall; [|exact Hkeys].
    apply Permutation_sym, stableSort_perm.
Qed.

Lemma sortBy_total (l : list A) :
  Forall (fun v => mapper v <> None) l ->
  exists r, Immutable.sortBy mapper l = Some r.
Proof.
  intros Hl. unfold Immutable.sortBy.
  destruct (@mapM_total A (Z * A) (fun v => k <- mapper v ;; Some (k, v)) l)
    as [entries He].
  - eapply Forall_impl; [|exact Hl]. intros v Hv. simpl.
    destruct (mapper v) eqn:E; simpl; congruence.
  - rewrite He. simpl. eexists. reflexivity.
Qed.
End Sorting.

Lemma StronglySorted_nth {A : Type} (R : A -> A -> Prop) (l : list A) :
  StronglySorted R l ->
  forall i j a b, (i < j)%nat ->
    nth_error l i = Some a -> nth_error l j = Some b -> R a b.
Proof.
  induction 1 as [|x l _ IH Hall]; intros i j a b Hij Ha Hb.
  - destruct i; discriminate.
  - destruct j as [|j]; [lia|]. simpl in Hb. destruct i as [|i]; simpl in Ha.
    + injection Ha as <-. rewrite Forall_forall in Hall.
      apply Hall. eapply nth_error_In, Hb.
    + eapply IH; [|exact Ha|exact Hb]. lia.
Qed.

(** ** Maps: [get], [update], [groupBy], [mergeWith] *)

Section MapFacts.
Context {K : Type} (eqb : K -> K -> bool).
Hypothesis eqb_spec : forall x y, reflect (x = y) (eqb x y).

Lemma eqb_refl (k : K) : eqb k k = true.
Proof. destruct (eqb_spec k k); congruence. Qed.

Section Entries.
Context {V : Type}.
Implicit Types (m : list (K * V)) (k : K) (v : V).

Lemma get_update k k' (updater : option V -> V) m :
  Immutable.get eqb k (Immutable.update eqb k' updater m)
  = if eqb k k' then Some (updater (Immutable.get eqb k' m))
    else Immutable.get eqb k m.
Proof.
  induction m as [|[k0 v0] m IH]; simpl.
  - reflexivity.
  - destruct (eqb_spec k' k0) as [->|Hne]; simpl.
    + destruct (eqb_spec k k0) as [->|Hne']; reflexivity.
    + destruct (eqb_spec k k0) as [->|Hne'].
      * destruct (eqb_spec k0 k'); congruence.
      * exact IH.
Qed.

Lemma keys_update k k' (updater : option V -> V) m :
  In k (map fst (Immutable.update eqb k' updater m))
  <-> In k (map fst m) \/ k = k'.
Proof.
  induction m as [|[k0 v0] m IH]; simpl.
  - intuition congruence.
  - destruct (eqb_spec k' k0) as [->|Hne]; simpl.
    + intuition congruence.
    + rewrite IH. tauto.
Qed.

Lemma NoDup_update k (updater : option V -> V) m :
  NoDup (map fst m) -> NoDup (map fst (Immutable.update eqb k updater m)).
Proof.
  induction m as [|[k0 v0] m IH]; simpl; intros Hm.
  - repeat constructor. intros [].
  - inversion Hm as [|? ? Hnotin Hrest]; subst.
    destruct (eqb_spec k k0) as [->|Hne]; simpl.
    + constructor; assumption.
    + constructor; [|apply IH, Hrest].
      rewrite keys_update. intros [Hin|Heq]; [contradiction | congruence].
Qed.

Lemma get_In k v m : Immutable.get eqb k m = Some v -> In (k, v) m.
Proof.
  induction m as [|[k0 v0] m IH]; simpl; intros H.
  - discriminate.
  - destruct (eqb_spec k k0) as [->|Hne].
    + injection H as ->. left. reflexivity.
    + right. apply IH, H.
Qed.

Lemma In_get k v m :
  NoDup (map fst m) -> In (k, v) m -> Immutable.get eqb k m = Some v.
Proof.
  induction m as [|[k0 v0] m IH]; simpl; intros Hm Hin.
  - contradiction.
  - inversion Hm as [|? ? Hnotin Hrest]; subst.
    destruct Hin as [Heq|Hin].
    + injection Heq as -> ->. rewrite eqb_refl. reflexivity.
    + destruct (eqb_spec k k0) as [->|Hne].
      * exfalso. apply Hnotin. apply (in_map fst) in Hin. exact Hin.
      * apply IH; assumption.
Qed.

End Entries.

(** *** [groupBy] *)

Section Groups.
Context {A : Type} (grouper : A -> K).

Let step (groups : list (K * list A)) (v : A) :=
  Immutable.update eqb (grouper v)
    (fun a => match a with None => [v] | Some arr => arr ++ [v] end)
    groups.

Lemma get_groups (l : list A) (acc : list (K * list A)) (k : K) :
  Immutable.get eqb k (fold_left step l acc)
  = extend (Immutable.get eqb k acc) (group eqb grouper k l).
Proof.
  revert acc. induction l as [|x l IH]; intros acc; simpl.
  - reflexivity.
  - rewrite IH. unfold step. rewrite get_update. unfold group. simpl.
    destruct (eqb_spec k (grouper x)) as [->|Hne].
    + fold (group eqb grouper (grouper x) l).
      destruct (Immutable.get eqb (grouper x) acc) as [arr|];
        destruct (group eqb grouper (grouper x) l); simpl;
        rewrite <- ?app_assoc; reflexivity.
    + reflexivity.
Qed.

Lemma NoDup_groups (l : list A) (acc : list (K * list A)) :
  NoDup (map fst acc) -> NoDup (map fst (fold_left step l acc)).
Proof.
  revert acc. induction l as [|x l IH]; intros acc Hacc; simpl.
  - exact Hacc.
  - apply IH, NoDup_update, Hacc.
Qed.

Lemma groups_perm (l : list A) (acc : list (K * list A)) :
  Permutation (flat_map snd (fold_left step l acc)) (flat_map snd acc ++ l).
Proof.
  revert acc. induction l as [|x l IH]; intros acc; simpl.
  - rewrite app_nil_r. apply Permutation_refl.
  - eapply perm_trans; [apply IH|].
    replace (flat_map snd acc ++ x :: l)
      with ((flat_map snd acc ++ [x]) ++ l)
      by (rewrite <- app_assoc; reflexivity).
    apply Permutation_app_tail.
    clear IH. unfold step.
    induction acc as [|[k0 g0] acc IHacc]; simpl.
    + apply Permutation_refl.
    + destruct (eqb (grouper x) k0); simpl.
      * rewrite <- !app_assoc. apply Permutation_app_head.
        simpl. apply Permutation_cons_append.
      * rewrite <- app_assoc. apply Permutation_app_head, IHacc.
Qed.

Lemma get_groupBy (l : list A) (k : K) :
  Immutable.get eqb k (Immutable.groupBy eqb grouper l)
  = match group eqb grouper k l with
    | [] => None
    | g => Some g
    end.
Proof.
  unfold Immutable.groupBy. fold step. rewrite get_groups. simpl.
  destruct (group eqb grouper k l); reflexivity.
Qed.

Lemma NoDup_groupBy (l : list A) :
  NoDup (map fst (Immutable.groupBy eqb grouper l)).
Proof. apply NoDup_groups. constructor. Qed.

Lemma groupBy_perm (l : list A) :
  Permutation (flat_map snd (Immutable.groupBy eqb grouper l)) l.
Proof. apply (groups_perm l []). Qed.

Lemma getOr_groupBy (l : list A) (k : K) :
  Immutable.getOr eqb k [] (Immutable.groupBy eqb grouper l) = group eqb grouper k l.
Proof.
  unfold Immutable.getOr. rewrite get_groupBy.
  destruct (group eqb grouper k l); reflexivity.
Qed.
End Groups.

(** *** [mergeWith] *)

Section Merge.
Context {V : Type} (merger : V -> V -> option V) (g : V -> V -> V).

Lemma mergeWith_get (other m : list (K * V)) :
  NoDup (map fst other) ->
  NoDup (map fst m) ->
  (forall k v', Immutable.get eqb k other = Some v' ->
                forall v, merger v v' = Some (g v v')) ->
  exists mergedMap,
    Immutable.mergeWith eqb merger m other = Some mergedMap /\
    NoDup (map fst mergedMap) /\
    forall k, Immutable.get eqb k mergedMap
              = merged g (Immutable.get eqb k m) (Immutable.get eqb k other).
Proof.
  unfold Immutable.mergeWith. revert m.
  induction other as [|[k0 v0] other IH]; intros m Hother Hm Hmerger; simpl.
  - exists m. repeat split; [exact Hm|].
    intros k. destruct (Immutable.get eqb k m); reflexivity.
  - inversion Hother as [|? ? Hnotin Hrest]; subst.
    assert (Hmerger' : forall k v', Immutable.get eqb k other = Some v' ->
                                    forall v, merger v v' = Some (g v v')).
    { intros k v' Hk. apply (Hmerger k). simpl.
      destruct (eqb_spec k k0) as [->|Hne]; [|exact Hk].
      exfalso. apply Hnotin. apply get_In in Hk.
      apply (in_map fst) in Hk. exact Hk. }
    assert (Hhead : forall v, merger v v0 = Some (g v v0)).
    { apply (Hmerger k0). simpl. rewrite eqb_refl. reflexivity. }
    assert (Hk0 : Immutable.get eqb k0 other = None).
    { destruct (Immutable.get eqb k0 other) as [v|] eqn:E; [|reflexivity].
      exfalso. apply Hnotin. apply get_In in E.
      apply (in_map fst) in E. exact E. }
    destruct (Immutable.get eqb k0 m) as [existing|] eqn:Hget.
    + rewrite Hhead. simpl.
      destruct (IH (Immutable.update eqb k0 (fun _ => g existing v0) m))
        as [mergedMap [Hfold [Hnodup Hmerged]]];
        [exact Hrest | apply NoDup_update, Hm | exact Hmerger' |].
      exists mergedMap. repeat split; [exact Hfold | exact Hnodup|].
      intros k. rewrite Hmerged, get_update.
      destruct (eqb_spec k k0) as [->|Hne].
      * rewrite Hk0, Hget. reflexivity.
      * reflexivity.
    + destruct (IH (Immutable.update eqb k0 (fun _ => v0) m))
        as [mergedMap [Hfold [Hnodup Hmerged]]];
        [exact Hrest | apply NoDup_update, Hm | exact Hmerger' |].
      exists mergedMap. repeat split; [exact Hfold | exact Hnodup|].
      intros k. rewrite Hmerged, get_update.
      destruct (eqb_spec k k0) as [->|Hne].
      * rewrite Hk0, Hget. reflexivity.
      * reflexivity.
Qed.
End Merge.

(** The items of a map whose keys are distinct. *)
Lemma In_flat_map_get {A : Type} (m : list (K * list A)) (x : A) :
  NoDup (map fst m) ->
  (In x (flat_map snd m)
   <-> exists k l, Immutable.get eqb k m = Some l /\ In x l).
Proof.
  intros Hm. rewrite in_flat_map. split.
  - intros [[k l] [Hin Hx]]. exists k, l. split; [|exact Hx].
    apply In_get; assumption.
  - intros [k [l [Hget Hx]]]. exists (k, l). split; [|exact Hx].
    apply get_In, Hget.
Qed.
End MapFacts.

(** ** The reconciliation engine *)

Lemma In_group {K A : Type} (eqb : K -> K -> bool)
    (eqb_spec : forall x y, reflect (x = y) (eqb x y))
    (grouper : A -> K) (k : K) (l : list A) (x : A) :
  In x (group eqb grouper k l) <-> In x l /\ grouper x = k.
Proof.
  unfold group. rewrite filter_In.
  destruct (eqb_spec k (grouper x)); intuition congruence.
Qed.

Lemma group_nil {K A : Type} (eqb : K -> K -> bool)
    (eqb_spec : forall x y, reflect (x = y) (eqb x y))
    (grouper : A -> K) (k : K) (l : list A) :
  group eqb grouper k l = [] <-> (forall x, In x l -> grouper x <> k).
Proof.
  split.
  - intros Hnil x Hin Hk.
    assert (Hx : In x (group eqb grouper k l)) by (apply In_group; auto).
    rewrite Hnil in Hx. exact Hx.
  - intros Hall. destruct (group eqb grouper k l) as [|x g] eqn:E.
    + reflexivity.
    + exfalso. assert (Hx : In x (group eqb grouper k l))
        by (rewrite E; left; reflexivity).
      apply In_group in Hx; [|exact eqb_spec].
      destruct Hx as [Hin Hk]. exact (Hall x Hin Hk).
Qed.

(** The saved group of a URL starts with the first saved item of the URL. *)
Lemma hd_saved_group (url : string) (tabItems : list TabItem.t) :
  hd_error (group String.eqb TabItem.url url
              (map resetSavedItem (filter TabItem.saved tabItems)))
  = option_map resetSavedItem (firstSavedAt url tabItems).
Proof.
  unfold firstSavedAt, group.
  induction tabItems as [|ti tabItems IH]; simpl.
  - reflexivity.
  - destruct (TabItem.saved ti); simpl.
    + destruct (String.eqb url (TabItem.url ti)); simpl; [reflexivity | exact IH].
    + exact IH.
Qed.

Lemma mergeTabItems_cons (openItems : list TabItem.t) (savedItem : TabItem.t)
    (rest : list TabItem.t) :
  mergeTabItems openItems (savedItem :: rest)
  = Some (map (fun openItem =>
                 TabItem.set_savedState (TabItem.savedState savedItem)
                   (TabItem.set_saved true openItem))
              openItems).
Proof.
  unfold mergeTabItems. apply mapM_Some.
  apply Forall_forall. intros openItem _. reflexivity.
Qed.

(** The items of the merged map: one per live tab, and the saved items
    whose URL no live tab has. *)
Lemma mergedMap_items (tabItems : list TabItem.t) (openTabs : list Tab.t) :
  exists mergedMap,
    Immutable.mergeWith String.eqb mergeTabItems
      (Immutable.groupBy String.eqb TabItem.url (map makeOpenTabItem openTabs))
      (Immutable.groupBy String.eqb TabItem.url
         (map resetSavedItem (filter TabItem.saved tabItems)))
    = Some mergedMap /\
    forall x,
      In x (flat_map snd mergedMap) <->
      (exists tab, In tab openTabs /\ x = reconciledOpenItem tabItems tab) \/
      (exists ti, In ti tabItems /\ TabItem.saved ti = true /\
                  (forall tab, In tab openTabs ->
                               TabItem.url (makeOpenTabItem tab) <> TabItem.url ti) /\
                  x = resetSavedItem ti).
Proof.
  set (openItems := map makeOpenTabItem openTabs).
  set (baseSavedItems := map resetSavedItem (filter TabItem.saved tabItems)).
  destruct (@mergeWith_get string String.eqb String.eqb_spec (list TabItem.t)
              mergeTabItems mergeGroups
              (Immutable.groupBy String.eqb TabItem.url baseSavedItems)
              (Immutable.groupBy String.eqb TabItem.url openItems))
    as [mergedMap [Hmerge [Hnodup Hget]]].
  - apply NoDup_groupBy, String.eqb_spec.
  - apply NoDup_groupBy, String.eqb_spec.
  - intros k v' Hk v. rewrite get_groupBy in Hk by apply String.eqb_spec.
    destruct (group String.eqb TabItem.url k baseSavedItems) as [|s g];
      [discriminate|].
    injection Hk as <-. apply mergeTabItems_cons.
  - exists mergedMap. split; [exact Hmerge|]. intros x.
    rewrite (In_flat_map_get _ String.eqb_spec) by exact Hnodup.
    assert (Hopen : forall k o,
               In o (group String.eqb TabItem.url k openItems) <->
               exists tab, In tab openTabs /\ o = makeOpenTabItem tab /\
                           TabItem.url o = k).
    { intros k o. rewrite (In_group _ String.eqb_spec). unfold openItems.
      rewrite in_map_iff. split.
      - intros [[tab [<- Hin]] Hk]. exists tab. auto.
      - intros [tab [Hin [-> Hk]]]. split; [exists tab; auto | exact Hk]. }
    assert (Hsaved : forall k s,
               In s (group String.eqb TabItem.url k baseSavedItems) <->
               exists ti, In ti tabItems /\ TabItem.saved ti = true /\
                          s = resetSavedItem ti /\ TabItem.url ti = k).
    { intros k s. rewrite (In_group _ String.eqb_spec). unfold baseSavedItems.
      rewrite in_map_iff. split.
      - intros [[ti [<- Hin]] Hk]. apply filter_In in Hin.
        exists ti. simpl in Hk. tauto.
      - intros [ti [Hin [Hs [-> Hk]]]]. split; [|exact Hk].
        exists ti. split; [reflexivity|]. apply filter_In. auto. }
    split.
    + intros [k [l [Hk Hx]]]. rewrite Hget in Hk.
      rewrite !get_groupBy in Hk by apply String.eqb_spec.
      pose proof (hd_saved_group k tabItems) as Hhd.
      fold baseSavedItems in Hhd.
      destruct (group String.eqb TabItem.url k openItems) as [|o og] eqn:Eo;
        destruct (group String.eqb TabItem.url k baseSavedItems) as [|s sg] eqn:Es;
        unfold merged in Hk; try discriminate; injection Hk as <-.
      * right. rewrite <- Es in Hx. apply Hsaved in Hx.
        destruct Hx as [ti [Hin [Hs [-> Hurl]]]].
        exists ti. repeat split; try assumption.
        intros tab Htab Heq.
        apply (proj1 (group_nil _ String.eqb_spec TabItem.url k openItems) Eo
                 (makeOpenTabItem tab)).
        -- unfold openItems. apply in_map, Htab.
        -- congruence.
      * left. rewrite <- Eo in Hx. apply Hopen in Hx.
        destruct Hx as [tab [Hin [-> Hurl]]]. exists tab. split; [exact Hin|].
        unfold reconciledOpenItem. simpl in Hurl. simpl. rewrite Hurl.
        simpl in Hhd. destruct (firstSavedAt k tabItems); [discriminate|].
        reflexivity.
      * left.
        change (In x (map (fun openItem =>
                             TabItem.set_savedState (TabItem.savedState s)
                               (TabItem.set_saved true openItem))
                          (o :: og))) in Hx.
        apply in_map_iff in Hx.
        destruct Hx as [o' [<- Ho']]. rewrite <- Eo in Ho'. apply Hopen in Ho'.
        destruct Ho' as [tab [Hin [-> Hurl]]]. exists tab. split; [exact Hin|].
        unfold reconciledOpenItem. simpl in Hurl. simpl. rewrite Hurl.
        simpl in Hhd. destruct (firstSavedAt k tabItems) as [s0|];
          [|discriminate].
        injection Hhd as ->. reflexivity.
    + intros [[tab [Hin ->]]|[ti [Hin [Hs [Hlive ->]]]]].
      * set (k := TabItem.url (makeOpenTabItem tab)).
        assert (Ho : In (makeOpenTabItem tab)
                       (group String.eqb TabItem.url k openItems)).
        { apply Hopen. exists tab. auto. }
        pose proof (hd_saved_group k tabItems) as Hhd.
        fold baseSavedItems in Hhd.
        exists k. unfold reconciledOpenItem. fold k.
        rewrite Hget, !get_groupBy by apply String.eqb_spec.
        destruct (group String.eqb TabItem.url k openItems) as [|o og] eqn:Eo;
          [contradiction|].
        destruct (group String.eqb TabItem.url k baseSavedItems) as [|s sg] eqn:Es;
          simpl in Hhd; destruct (firstSavedAt k tabItems) as [s0|];
          try discriminate; simpl.
        -- exists (o :: og). split; [reflexivity | exact Ho].
        -- injection Hhd as ->. eexists. split; [reflexivity|].
           apply (in_map (fun openItem =>
                            TabItem.set_savedState
                              (TabItem.savedState (resetSavedItem s0))
                              (TabItem.set_saved true openItem))
                         (o :: og) _ Ho).
      * set (k := TabItem.url ti).
        assert (Hsg : In (resetSavedItem ti)
                        (group String.eqb TabItem.url k baseSavedItems)).
        { apply Hsaved. exists ti. auto. }
        assert (Eo : group String.eqb TabItem.url k openItems = []).
        { apply (group_nil _ String.eqb_spec). intros o Ho. unfold openItems in Ho.
          apply in_map_iff in Ho. destruct Ho as [tab [<- Htab]].
          apply Hlive, Htab. }
        exists k. rewrite Hget, !get_groupBy by apply String.eqb_spec.
        rewrite Eo.
        destruct (group String.eqb TabItem.url k baseSavedItems) as [|s sg] eqn:Es;
          [contradiction|].
        simpl. exists (s :: sg). split; [reflexivity | exact Hsg].
Qed.

Lemma reconciledOpenItem_open (tabItems : list TabItem.t) (tab : Tab.t) :
  TabItem.open (reconciledOpenItem tabItems tab) = true /\
  TabItem.openState (reconciledOpenItem tabItems tab)
  = Some (makeOpenTabState tab).
Proof.
  unfold reconciledOpenItem.
  destruct (firstSavedAt _ tabItems); split; reflexivity.
Qed.

Lemma firstSavedAt_None (url : string) (tabItems : list TabItem.t) :
  (forall ti, In ti tabItems -> TabItem.saved ti = true -> TabItem.url ti <> url) ->
  firstSavedAt url tabItems = None.
Proof.
  unfold firstSavedAt. induction tabItems as [|ti tabItems IH]; simpl; intros H.
  - reflexivity.
  - destruct (TabItem.saved ti) eqn:Hs; simpl.
    + destruct (String.eqb_spec url (TabItem.url ti)) as [Heq|Hne].
      * exfalso. apply (H ti); auto.
      * apply IH. intros ti' Hin. apply H. right. exact Hin.
    + apply IH. intros ti' Hin. apply H. right. exact Hin.
Qed.

Section ReconciliationFacts.
Variable iterationOrder :
  list (string * list TabItem.t) -> list (string * list TabItem.t).
Hypothesis iterationOrder_perm :
  forall m, Permutation (iterationOrder m) m.

(** [mergeOpenTabs] with its partition written as two filters. *)
Lemma mergeOpenTabs_eq (tabItems : list TabItem.t) (openTabs : list Tab.t) :
  mergeOpenTabs iterationOrder tabItems openTabs
  = (mergedMap <-
       Immutable.mergeWith String.eqb mergeTabItems
         (Immutable.groupBy String.eqb TabItem.url
            (map makeOpenTabItem openTabs))
         (Immutable.groupBy String.eqb TabItem.url
            (map resetSavedItem (filter TabItem.saved tabItems))) ;;
     openTabItems <-
       Immutable.sortBy openTabIndexOf
         (group Bool.eqb TabItem.open true
            (flat_map snd (iterationOrder mergedMap))) ;;
     closedTabItems <-
       Immutable.sortBy bookmarkIndexOf
         (group Bool.eqb TabItem.open false
            (flat_map snd (iterationOrder mergedMap))) ;;
     Some (openTabItems ++ closedTabItems)).
Proof.
  unfold mergeOpenTabs, getOpenTabInfo.
  destruct (Immutable.mergeWith _ _ _ _) as [mergedMap|]; simpl;
    [|reflexivity].
  rewrite !(getOr_groupBy _ Bool.eqb_spec). reflexivity.
Qed.

Lemma In_iterationOrder (mergedMap : list (string * list TabItem.t))
    (x : TabItem.t) :
  In x (flat_map snd (iterationOrder mergedMap))
  <-> In x (flat_map snd mergedMap).
Proof.
  assert (Hperm : Permutation (flat_map snd (iterationOrder mergedMap))
                              (flat_map snd mergedMap))
    by apply Permutation_flat_map, iterationOrder_perm.
  split; apply Permutation_in; [|apply Permutation_sym]; exact Hperm.
Qed.

(** The result is the open items of the reconciliation, sorted, then the
    closed ones, sorted. *)
Lemma mergeOpenTabs_inv (tabItems : list TabItem.t) (openTabs : list Tab.t)
    (r : list TabItem.t) :
  mergeOpenTabs iterationOrder tabItems openTabs = Some r ->
  exists openTabItems closedTabItems,
    r = openTabItems ++ closedTabItems /\
    (forall x, In x openTabItems <->
               reconciled tabItems openTabs x /\ TabItem.open x = true) /\
    (forall x, In x closedTabItems <->
               reconciled tabItems openTabs x /\ TabItem.open x = false) /\
    StronglySorted (ascending openTabIndexOf) openTabItems /\
    StronglySorted (ascending bookmarkIndexOf) closedTabItems.
Proof.
  rewrite mergeOpenTabs_eq.
  destruct (mergedMap_items tabItems openTabs) as [mergedMap [-> Hitems]].
  simpl. intros H.
  apply bind_Some in H. destruct H as [os [Hos H]].
  apply bind_Some in H. destruct H as [cs [Hcs H]]. injection H as <-.
  apply sortBy_inv in Hos. destruct Hos as [Hperm_os Hsorted_os].
  apply sortBy_inv in Hcs. destruct Hcs as [Hperm_cs Hsorted_cs].
  assert (Hgroup : forall (b : bool) (l : list TabItem.t),
             Permutation l (group Bool.eqb TabItem.open b
                              (flat_map snd (iterationOrder mergedMap))) ->
             forall x, In x l <->
                       reconciled tabItems openTabs x /\ TabItem.open x = b).
  { intros b l Hperm x. unfold reconciled. rewrite <- Hitems.
    rewrite <- In_iterationOrder, <- (In_group _ Bool.eqb_spec).
    split; apply Permutation_in; [|apply Permutation_sym]; exact Hperm. }
  exists os, cs.
  split; [reflexivity|].
  split; [apply Hgroup, Hperm_os|].
  split; [apply Hgroup, Hperm_cs|].
  split; assumption.
Qed.

(** On saved items that carry their saved state the merge does not
    throw. *)
Lemma mergeOpenTabs_total (tabItems : list TabItem.t) (openTabs : list Tab.t) :
  Forall savedStateOk tabItems ->
  exists r, mergeOpenTabs iterationOrder tabItems openTabs = Some r.
Proof.
  intros Hok. rewrite mergeOpenTabs_eq.
  destruct (mergedMap_items tabItems openTabs) as [mergedMap [-> Hitems]].
  simpl.
  destruct (@sortBy_total TabItem.t openTabIndexOf
              (group Bool.eqb TabItem.open true
                 (flat_map snd (iterationOrder mergedMap)))) as [os Hos].
  { apply Forall_forall. intros x Hx.
    apply (In_group _ Bool.eqb_spec) in Hx. destruct Hx as [Hx Hopen].
    apply In_iterationOrder, Hitems in Hx.
    destruct Hx as [[tab [_ ->]]|[ti [_ [_ [_ ->]]]]].
    - unfold openTabIndexOf.
      rewrite (proj2 (reconciledOpenItem_open tabItems tab)). discriminate.
    - discriminate. }
  destruct (@sortBy_total TabItem.t bookmarkIndexOf
              (group Bool.eqb TabItem.open false
                 (flat_map snd (iterationOrder mergedMap)))) as [cs Hcs].
  { apply Forall_forall. intros x Hx.
    apply (In_group _ Bool.eqb_spec) in Hx. destruct Hx as [Hx Hopen].
    apply In_iterationOrder, Hitems in Hx.
    destruct Hx as [[tab [_ ->]]|[ti [Hin [Hs [_ ->]]]]].
    - rewrite (proj1 (reconciledOpenItem_open tabItems tab)) in Hopen.
      discriminate.
    - rewrite Forall_forall in Hok. specialize (Hok ti Hin Hs).
      unfold bookmarkIndexOf. simpl.
      destruct (TabItem.savedState ti); [discriminate | contradiction]. }
  rewrite Hos. simpl. rewrite Hcs. simpl. eexists. reflexivity.
Qed.
End ReconciliationFacts.

(** ** The mutators *)

Lemma Forall_splice {A : Type} (P : A -> Prop) (index removeNum : nat)
    (values l : list A) :
  Forall P l -> Forall P values ->
  Forall P (Immutable.splice index removeNum values l).
Proof.
  intros Hl Hvalues. unfold Immutable.splice.
  pose proof Hl as Hfirst. rewrite <- (firstn_skipn index l) in Hfirst.
  pose proof Hl as Hskip.
  rewrite <- (firstn_skipn (index + removeNum) l) in Hskip.
  apply Forall_app in Hfirst. apply Forall_app in Hskip.
  repeat (apply Forall_app; split); tauto.
Qed.

Lemma activeCount_app (l l' : list TabItem.t) :
  activeCount (l ++ l') = (activeCount l + activeCount l')%nat.
Proof. unfold activeCount. rewrite filter_app, length_app. reflexivity. Qed.

Lemma activeCount_one (ti : TabItem.t) :
  activeCount [ti] = if isActiveOpen ti then 1%nat else 0%nat.
Proof. unfold activeCount. simpl. destruct (isActiveOpen ti); reflexivity. Qed.

Lemma activeCount_splice_le (index : nat) (ti : TabItem.t) (l : list TabItem.t) :
  (activeCount (Immutable.splice index 1 [ti] l) <= activeCount l + 1)%nat.
Proof.
  unfold Immutable.splice. rewrite !activeCount_app, activeCount_one.
  rewrite <- (firstn_skipn index l) at 3. rewrite activeCount_app.
  rewrite Nat.add_comm with (n := index), <- skipn_skipn.
  assert (Hskip : (activeCount (skipn 1 (skipn index l))
                   <= activeCount (skipn index l))%nat).
  { destruct (skipn index l) as [|y rest]; simpl; [lia|].
    change (y :: rest) with ([y] ++ rest). rewrite activeCount_app. lia. }
  destruct (isActiveOpen ti); lia.
Qed.

Lemma activeCount_none (l : list TabItem.t) :
  Forall (fun y => isActiveOpenTab y = Some false) l -> activeCount l = 0%nat.
Proof.
  induction 1 as [|y l Hy _ IH].
  - reflexivity.
  - change (y :: l) with ([y] ++ l).
    rewrite activeCount_app, activeCount_one, IH.
    unfold isActiveOpenTab in Hy. unfold isActiveOpen.
    destruct (TabItem.open y); [|reflexivity].
    destruct (TabItem.openState y) as [os|]; [|reflexivity].
    simpl in Hy. injection Hy as ->. reflexivity.
Qed.

Lemma isActiveOpenTab_true (ti : TabItem.t) :
  isActiveOpenTab ti = Some true -> isActiveOpen ti = true.
Proof.
  unfold isActiveOpenTab, isActiveOpen.
  destruct (TabItem.open ti); [|discriminate].
  destruct (TabItem.openState ti) as [os|]; [|discriminate].
  simpl. intros H. injection H as ->. reflexivity.
Qed.

Lemma isOpenTabWithId_true (tabId : Z) (ti : TabItem.t) :
  isOpenTabWithId tabId ti = Some true <-> matchesOpenTabId tabId ti.
Proof.
  unfold isOpenTabWithId, matchesOpenTabId.
  destruct (TabItem.open ti).
  - destruct (TabItem.openState ti) as [os|]; simpl.
    + destruct (Z.eqb_spec (OpenTabState.openTabId os) tabId) as [Heq|Hne].
      * split; [intros _|reflexivity].
        split; [reflexivity | exists os; auto].
      * split; [discriminate|].
        intros [_ [os' [Hos Hid]]]. injection Hos as <-. contradiction.
    + split; [discriminate|]. intros [_ [os' [Hos _]]]. discriminate.
  - split; [discriminate|]. intros [Hopen _]. discriminate.
Qed.

Lemma isOpenTabWithId_false (tabId : Z) (ti : TabItem.t) :
  openStateOk ti -> ~ matchesOpenTabId tabId ti ->
  isOpenTabWithId tabId ti = Some false.
Proof.
  intros Hok Hmiss.
  destruct (isOpenTabWithId tabId ti) as [[|]|] eqn:E.
  - exfalso. apply Hmiss, isOpenTabWithId_true, E.
  - reflexivity.
  - exfalso. unfold isOpenTabWithId, openStateOk in *.
    destruct (TabItem.open ti); [|discriminate].
    destruct (TabItem.openState ti); [discriminate|]. apply Hok; reflexivity.
Qed.

Lemma isOpenTabWithId_defined (tabId : Z) (ti : TabItem.t) :
  openStateOk ti -> isOpenTabWithId tabId ti <> None.
Proof.
  unfold isOpenTabWithId, openStateOk. intros Hok.
  destruct (TabItem.open ti); [|discriminate].
  destruct (TabItem.openState ti); [discriminate|].
  exfalso. apply Hok; reflexivity.
Qed.

Lemma isActiveOpenTab_defined (ti : TabItem.t) :
  openStateOk ti -> isActiveOpenTab ti <> None.
Proof.
  unfold isActiveOpenTab, openStateOk. intros Hok.
  destruct (TabItem.open ti); [|discriminate].
  destruct (TabItem.openState ti); [discriminate|].
  exfalso. apply Hok; reflexivity.
Qed.

(** One call keeps the number of active open items at one at most. *)
Lemma setActiveTab_step (tabWindow tabWindow' : TabWindow.t) (tabId : Z) :
  setActiveTab tabWindow tabId = Some tabWindow' ->
  (activeCount (TabWindow.tabItems tabWindow) <= 1)%nat ->
  (activeCount (TabWindow.tabItems tabWindow') <= 1)%nat.
Proof.
  unfold setActiveTab. intros H Hcount.
  apply bind_Some in H. destruct H as [tabPos [_ H]].
  destruct tabPos as [[index tabItem]|]; [|injection H as <-; exact Hcount].
  unfold TabItem.active in H.
  apply bind_Some in H. destruct H as [prevPos [Hprev H]].
  apply bind_Some in H. destruct H as [nonActiveItems [Hnon H]].
  apply bind_Some in H. destruct H as [openState [_ H]].
  injection H as <-. simpl.
  assert (Hzero : activeCount nonActiveItems = 0%nat).
  { destruct prevPos as [[prevIndex prevActiveTab]|].
    - apply bind_Some in Hnon. destruct Hnon as [prevOpenState [_ Hnon]].
      injection Hnon as <-.
      apply findEntry_inv in Hprev.
      destruct Hprev as [pre [post [Hitems [-> [Hpre Hactive]]]]].
      rewrite Hitems in Hcount |- *. rewrite splice_at.
      change (pre ++ prevActiveTab :: post)
        with (pre ++ [prevActiveTab] ++ post) in Hcount.
      rewrite !activeCount_app, !activeCount_one in *.
      rewrite (isActiveOpenTab_true _ Hactive) in Hcount.
      replace (isActiveOpen _) with false; [lia|].
      unfold isActiveOpen. simpl. rewrite andb_false_r. reflexivity.
    - injection Hnon as <-. apply activeCount_none.
      eapply findEntryFrom_missing_inv, Hprev. }
  pose proof (activeCount_splice_le index
                (TabItem.set_openState
                   (Some (OpenTabState.set_active true openState)) tabItem)
                nonActiveItems).
  lia.
Qed.

(** On items that carry their open state a call does not throw, and its
    result is again such a window. *)
Lemma setActiveTab_total (tabWindow : TabWindow.t) (tabId : Z) :
  Forall openStateOk (TabWindow.tabItems tabWindow) ->
  exists tabWindow',
    setActiveTab tabWindow tabId = Some tabWindow' /\
    Forall openStateOk (TabWindow.tabItems tabWindow').
Proof.
  intros Hok. unfold setActiveTab.
  destruct (findEntry_total (isOpenTabWithId tabId)
              (l := TabWindow.tabItems tabWindow)) as [tabPos Hpos].
  { eapply Forall_impl; [|exact Hok]. intros ti. apply isOpenTabWithId_defined. }
  rewrite Hpos. simpl.
  destruct tabPos as [[index tabItem]|]; [|exists tabWindow; auto].
  unfold TabItem.active.
  apply findEntry_inv in Hpos.
  destruct Hpos as [_ [_ [_ [_ [_ Hmatch]]]]].
  apply isOpenTabWithId_true in Hmatch.
  destruct Hmatch as [Hopen [openState [HopenState _]]].
  destruct (findEntry_total isActiveOpenTab
              (l := TabWindow.tabItems tabWindow)) as [prevPos Hprev].
  { eapply Forall_impl; [|exact Hok]. intros ti. apply isActiveOpenTab_defined. }
  rewrite Hprev. simpl.
  assert (Hupd : forall s, Forall openStateOk [TabItem.set_openState (Some s) tabItem]).
  { intros s. constructor; [|constructor]. intros _. discriminate. }
  destruct prevPos as [[prevIndex prevActiveTab]|].
  - apply findEntry_inv in Hprev.
    destruct Hprev as [_ [_ [_ [_ [_ Hactive]]]]].
    unfold isActiveOpenTab in Hactive.
    destruct (TabItem.open prevActiveTab); [|discriminate].
    destruct (TabItem.openState prevActiveTab) as [prevOpenState|];
      [|discriminate].
    simpl. rewrite HopenState. simpl. eexists. split; [reflexivity|]. simpl.
    apply Forall_splice; [|apply Hupd].
    apply Forall_splice; [exact Hok|].
    constructor; [|constructor]. intros _. discriminate.
  - simpl. rewrite HopenState. simpl. eexists. split; [reflexivity|]. simpl.
    apply Forall_splice; [exact Hok | apply Hupd].
Qed.

(** * The claims *)

Lemma nth_error_app_cases {A : Type} (l1 l2 : list A) (i : nat) (a : A) :
  nth_error (l1 ++ l2) i = Some a ->
  ((i < List.length l1)%nat /\ nth_error l1 i = Some a) \/
  ((List.length l1 <= i)%nat /\ nth_error l2 (i - List.length l1) = Some a).
Proof.
  intros H. destruct (Nat.lt_ge_cases i (List.length l1)) as [Hlt|Hge].
  - left. rewrite nth_error_app1 in H by exact Hlt. auto.
  - right. rewrite nth_error_app2 in H by exact Hge. auto.
Qed.

(** Sorted open items followed by sorted closed items satisfy the ordering
    contract. *)
Lemma ordered_app (openTabItems closedTabItems : list TabItem.t) :
  (forall x, In x openTabItems -> TabItem.open x = true) ->
  (forall x, In x closedTabItems -> TabItem.open x = false) ->
  StronglySorted (ascending openTabIndexOf) openTabItems ->
  StronglySorted (ascending bookmarkIndexOf) closedTabItems ->
  openBeforeClosed (openTabItems ++ closedTabItems) /\
  openAscending (openTabItems ++ closedTabItems) /\
  closedAscending (openTabItems ++ closedTabItems).
Proof.
  intros Hopen Hclosed Hsorted_open Hsorted_closed.
  assert (Hin_open : forall i a,
             nth_error (openTabItems ++ closedTabItems) i = Some a ->
             TabItem.open a = true ->
             (i < List.length openTabItems)%nat /\
             nth_error openTabItems i = Some a).
  { intros i a Ha Hoa. apply nth_error_app_cases in Ha.
    destruct Ha as [Ha|[_ Ha]]; [exact Ha|].
    apply nth_error_In, Hclosed in Ha. congruence. }
  assert (Hin_closed : forall i a,
             nth_error (openTabItems ++ closedTabItems) i = Some a ->
             TabItem.open a = false ->
             (List.length openTabItems <= i)%nat /\
             nth_error closedTabItems (i - List.length openTabItems) = Some a).
  { intros i a Ha Hoa. apply nth_error_app_cases in Ha.
    destruct Ha as [[_ Ha]|Ha]; [|exact Ha].
    apply nth_error_In, Hopen in Ha. congruence. }
  repeat split.
  - intros i j a b Ha Hb Hoa Hob.
    apply Hin_open in Ha; [|exact Hoa]. apply Hin_closed in Hb; [|exact Hob].
    lia.
  - intros i j a b Hij Ha Hb Hoa Hob.
    apply Hin_open in Ha; [|exact Hoa]. apply Hin_open in Hb; [|exact Hob].
    destruct Ha as [_ Ha]. destruct Hb as [_ Hb].
    destruct (StronglySorted_nth Hsorted_open Hij Ha Hb)
      as [ka [kb [Hka [Hkb Hle]]]].
    unfold openTabIndexOf in Hka, Hkb.
    destruct (TabItem.openState a) as [oa|]; [|discriminate].
    destruct (TabItem.openState b) as [ob|]; [|discriminate].
    simpl in Hka, Hkb. injection Hka as <-. injection Hkb as <-.
    exists oa, ob. auto.
  - intros i j a b Hij Ha Hb Hoa Hob.
    apply Hin_closed in Ha; [|exact Hoa]. apply Hin_closed in Hb; [|exact Hob].
    destruct Ha as [Hi Ha]. destruct Hb as [Hj Hb].
    assert (Hij' : (i - List.length openTabItems
                    < j - List.length openTabItems)%nat) by lia.
    destruct (StronglySorted_nth Hsorted_closed Hij' Ha Hb)
      as [ka [kb [Hka [Hkb Hle]]]].
    unfold bookmarkIndexOf in Hka, Hkb.
    destruct (TabItem.savedState a) as [sa|]; [|discriminate].
    destruct (TabItem.savedState b) as [sb|]; [|discriminate].
    simpl in Hka, Hkb. injection Hka as <-. injection Hkb as <-.
    exists sa, sb. auto.
Qed.

(** C1, the partition-and-order law.  Whatever the order in which the
    merged map yields its entries, every sequence [mergeOpenTabs] returns
    has its open items before its closed items, the open items in ascending
    order of [openState.openTabIndex] and the closed items in ascending
    order of [savedState.bookmarkIndex]; and [mergeOpenTabs] does return a
    sequence whenever the saved items of the prior sequence carry their
    saved state. *)
Theorem mergeOpenTabs_partition_and_order
    (iterationOrder : list (string * list TabItem.t)
                      -> list (string * list TabItem.t))
    (iterationOrder_perm : forall m, Permutation (iterationOrder m) m)
    (tabItems : list TabItem.t) (openTabs : list Tab.t) :
  (Forall savedStateOk tabItems ->
   exists r, mergeOpenTabs iterationOrder tabItems openTabs = Some r) /\
  (forall r, mergeOpenTabs iterationOrder tabItems openTabs = Some r ->
             openBeforeClosed r /\ openAscending r /\ closedAscending r).
Proof.
  split.
  - apply mergeOpenTabs_total, iterationOrder_perm.
  - intros r Hr.
    apply (mergeOpenTabs_inv _ iterationOrder_perm) in Hr.
    destruct Hr as [os [cs [-> [Hos [Hcs [Hsorted_os Hsorted_cs]]]]]].
    apply ordered_app; try assumption.
    + intros x Hx. apply Hos in Hx. tauto.
    + intros x Hx. apply Hcs in Hx. tauto.
Qed.

Lemma mergeOpenTabs_partition_and_order_witness :
  (forall m, Permutation (Sample.insertionOrder m) m) /\
  exists r,
    mergeOpenTabs Sample.insertionOrder [Sample.savedA]
      [Sample.tabB; Sample.tabA] = Some r /\
    openBeforeClosed r /\ openAscending r /\ closedAscending r.
Proof.
  assert (Hperm : forall m, Permutation (Sample.insertionOrder m) m)
    by (intros m; apply Permutation_refl).
  split; [exact Hperm|].
  destruct (@mergeOpenTabs_partition_and_order Sample.insertionOrder Hperm
              [Sample.savedA] [Sample.tabB; Sample.tabA])
    as [Htotal Hordered].
  destruct Htotal as [r Hr].
  - constructor; [|constructor]. intros _. discriminate.
  - exists r. split; [exact Hr | apply Hordered, Hr].
Defined.

(** C2, merge by URL.  In a sequence that [mergeOpenTabs] returns: a live
    tab whose URL is the URL of a saved item of the prior sequence is there
    as an open item with [saved = true] and the saved state of the first
    saved item of that URL; a live tab whose URL no saved item has is there
    as its open-only item; a saved item whose URL no live tab has is there
    closed, with its saved state unchanged.  The sequence is returned
    whenever the saved items of the prior sequence carry their saved
    state. *)
Theorem mergeOpenTabs_by_url
    (iterationOrder : list (string * list TabItem.t)
                      -> list (string * list TabItem.t))
    (iterationOrder_perm : forall m, Permutation (iterationOrder m) m)
    (tabItems : list TabItem.t) (openTabs : list Tab.t) :
  (Forall savedStateOk tabItems ->
   exists r, mergeOpenTabs iterationOrder tabItems openTabs = Some r) /\
  (forall r, mergeOpenTabs iterationOrder tabItems openTabs = Some r ->
     (forall tab savedItem,
         In tab openTabs ->
         firstSavedAt (lodash_get (Tab.url tab) "") tabItems = Some savedItem ->
         In {| TabItem.url := lodash_get (Tab.url tab) "";
               TabItem.saved := true;
               TabItem.savedState := TabItem.savedState savedItem;
               TabItem.open := true;
               TabItem.openState := Some (makeOpenTabState tab) |} r) /\
     (forall tab,
         In tab openTabs ->
         (forall ti, In ti tabItems -> TabItem.saved ti = true ->
                     TabItem.url ti <> lodash_get (Tab.url tab) "") ->
         In {| TabItem.url := lodash_get (Tab.url tab) "";
               TabItem.saved := false;
               TabItem.savedState := None;
               TabItem.open := true;
               TabItem.openState := Some (makeOpenTabState tab) |} r) /\
     (forall ti,
         In ti tabItems -> TabItem.saved ti = true ->
         (forall tab, In tab openTabs ->
                      lodash_get (Tab.url tab) "" <> TabItem.url ti) ->
         In {| TabItem.url := TabItem.url ti;
               TabItem.saved := true;
               TabItem.savedState := TabItem.savedState ti;
               TabItem.open := false;
               TabItem.openState := None |} r)).
Proof.
  split.
  - apply mergeOpenTabs_total, iterationOrder_perm.
  - intros r Hr.
    apply (mergeOpenTabs_inv _ iterationOrder_perm) in Hr.
    destruct Hr as [os [cs [-> [Hos [Hcs _]]]]].
    split; [|split].
    + intros tab savedItem Htab Hfirst. apply in_or_app. left.
      apply Hos. split; [|reflexivity].
      left. exists tab. split; [exact Htab|].
      unfold reconciledOpenItem. simpl. rewrite Hfirst. reflexivity.
    + intros tab Htab Hnone. apply in_or_app. left.
      apply Hos. split; [|reflexivity].
      left. exists tab. split; [exact Htab|].
      unfold reconciledOpenItem. simpl.
      rewrite (firstSavedAt_None _ Hnone). reflexivity.
    + intros ti Hti Hsaved Hnone. apply in_or_app. right.
      apply Hcs. split; [|reflexivity].
      right. exists ti.
      split; [exact Hti|]. split; [exact Hsaved|]. split.
      * intros tab Htab. apply Hnone, Htab.
      * unfold resetSavedItem, TabItem.set_openState, TabItem.set_open.
        simpl. rewrite Hsaved. reflexivity.
Qed.

Lemma mergeOpenTabs_by_url_witness :
  (forall m, Permutation (Sample.insertionOrder m) m) /\
  exists r,
    mergeOpenTabs Sample.insertionOrder [Sample.savedA]
      [Sample.tabA; Sample.tabB] = Some r /\
    In {| TabItem.url := "https://a.com";
          TabItem.saved := true;
          TabItem.savedState := Some (makeSavedTabState Sample.bookmarkA);
          TabItem.open := true;
          TabItem.openState := Some (makeOpenTabState Sample.tabA) |} r /\
    In (makeOpenTabItem Sample.tabB) r.
Proof.
  assert (Hperm : forall m, Permutation (Sample.insertionOrder m) m)
    by (intros m; apply Permutation_refl).
  split; [exact Hperm|].
  destruct (@mergeOpenTabs_by_url Sample.insertionOrder Hperm
              [Sample.savedA] [Sample.tabA; Sample.tabB])
    as [Htotal Hitems].
  destruct Htotal as [r Hr].
  - constructor; [|constructor]. intros _. discriminate.
  - exists r. split; [exact Hr|].
    destruct (Hitems r Hr) as [Hboth [Hlive _]]. split.
    + apply (Hboth Sample.tabA Sample.savedA); [left; reflexivity | reflexivity].
    + apply (Hlive Sample.tabB); [right; left; reflexivity|].
      intros ti [<-|[]] _. discriminate.
Defined.

Lemma setActiveTabs_thrown (tabIds : list Z) :
  fold_left (fun acc tabId => w <- acc ;; setActiveTab w tabId) tabIds None
  = None.
Proof. induction tabIds as [|tabId tabIds IH]; simpl; [reflexivity | exact IH]. Qed.

Lemma setActiveTabs_invariant (tabIds : list Z) (tabWindow tabWindow' : TabWindow.t) :
  setActiveTabs tabWindow tabIds = Some tabWindow' ->
  (activeCount (TabWindow.tabItems tabWindow) <= 1)%nat ->
  (activeCount (TabWindow.tabItems tabWindow') <= 1)%nat.
Proof.
  unfold setActiveTabs. revert tabWindow.
  induction tabIds as [|tabId tabIds IH]; simpl; intros tabWindow Hrun Hcount.
  - injection Hrun as <-. exact Hcount.
  - destruct (setActiveTab tabWindow tabId) as [next|] eqn:Hstep.
    + apply (IH next Hrun). eapply setActiveTab_step; eassumption.
    + rewrite setActiveTabs_thrown in Hrun. discriminate.
Qed.

Lemma setActiveTabs_total (tabIds : list Z) (tabWindow : TabWindow.t) :
  Forall openStateOk (TabWindow.tabItems tabWindow) ->
  exists tabWindow', setActiveTabs tabWindow tabIds = Some tabWindow'.
Proof.
  unfold setActiveTabs. revert tabWindow.
  induction tabIds as [|tabId tabIds IH]; simpl; intros tabWindow Hok.
  - exists tabWindow. reflexivity.
  - destruct (setActiveTab_total tabWindow tabId Hok) as [next [-> Hnext]].
    apply IH, Hnext.
Qed.

(** C3, the single-active invariant.  From a window with at most one item
    that is open and active, every window that a run of [setActiveTab]
    calls returns, whatever the tab ids, has at most one such item; and the
    run does return a window whenever the open items carry their open
    state. *)
Theorem setActiveTab_single_active (tabWindow : TabWindow.t) (tabIds : list Z) :
  (activeCount (TabWindow.tabItems tabWindow) <= 1)%nat ->
  (Forall openStateOk (TabWindow.tabItems tabWindow) ->
   exists tabWindow', setActiveTabs tabWindow tabIds = Some tabWindow') /\
  (forall tabWindow',
      setActiveTabs tabWindow tabIds = Some tabWindow' ->
      (activeCount (TabWindow.tabItems tabWindow') <= 1)%nat).
Proof.
  intros Hcount. split.
  - apply setActiveTabs_total.
  - intros tabWindow' Hrun. eapply setActiveTabs_invariant; eassumption.
Qed.

Lemma setActiveTab_single_active_witness :
  (activeCount (TabWindow.tabItems Sample.window) <= 1)%nat /\
  exists tabWindow',
    setActiveTabs Sample.window [8; 99; 8; 7; 8]%Z = Some tabWindow' /\
    (activeCount (TabWindow.tabItems tabWindow') <= 1)%nat.
Proof.
  assert (Hcount : (activeCount (TabWindow.tabItems Sample.window) <= 1)%nat)
    by (vm_compute; lia).
  split; [exact Hcount|].
  destruct (@setActiveTab_single_active Sample.window [8; 99; 8; 7; 8]%Z Hcount)
    as [Htotal Hinvariant].
  destruct Htotal as [tabWindow' Hrun].
  - repeat constructor; intros _; discriminate.
  - exists tabWindow'. split; [exact Hrun | apply Hinvariant, Hrun].
Defined.

(** C4, closing a tab.  When the first open item with the given tab id is
    also saved, [closeTab] puts in its place the item with [open = false],
    [openState = null], [saved = true] and the same saved state; when it is
    not saved, [closeTab] takes it out of the sequence.  The other items
    and the fields of the window stay as they are. *)
Theorem closeTab_found (tabWindow : TabWindow.t) (tabId : Z)
    (pre post : list TabItem.t) (tabItem : TabItem.t) :
  TabWindow.tabItems tabWindow = pre ++ tabItem :: post ->
  Forall openStateOk pre ->
  Forall (fun ti => ~ matchesOpenTabId tabId ti) pre ->
  matchesOpenTabId tabId tabItem ->
  (TabItem.saved tabItem = true ->
   closeTab tabWindow tabId
   = Some (TabWindow.set_tabItems
             (pre ++ {| TabItem.url := TabItem.url tabItem;
                        TabItem.saved := true;
                        TabItem.savedState := TabItem.savedState tabItem;
                        TabItem.open := false;
                        TabItem.openState := None |} :: post)
             tabWindow)) /\
  (TabItem.saved tabItem = false ->
   closeTab tabWindow tabId
   = Some (TabWindow.set_tabItems (pre ++ post) tabWindow)).
Proof.
  intros Hitems Hok Hmiss Hmatch.
  assert (Hentry : Immutable.findEntry (isOpenTabWithId tabId)
                     (TabWindow.tabItems tabWindow)
                   = Some (Some (List.length pre, tabItem))).
  { rewrite Hitems. apply findEntry_found.
    - rewrite Forall_forall in *. intros ti Hin.
      apply isOpenTabWithId_false; auto.
    - apply isOpenTabWithId_true, Hmatch. }
  unfold closeTab. rewrite Hentry. simpl. rewrite Hitems, !splice_at.
  split; intros Hsaved; rewrite Hsaved; simpl.
  - unfold resetSavedItem, TabItem.set_openState, TabItem.set_open. simpl.
    rewrite Hsaved. reflexivity.
  - reflexivity.
Qed.

Lemma closeTab_found_witness :
  closeTab Sample.savedWindow 7
  = Some (TabWindow.set_tabItems
            [Sample.savedA; makeOpenTabItem Sample.tabB] Sample.savedWindow)
  /\
  closeTab Sample.savedWindow 8
  = Some (TabWindow.set_tabItems [Sample.openSavedA] Sample.savedWindow).
Proof.
  split.
  - apply (@closeTab_found Sample.savedWindow 7 []
             [makeOpenTabItem Sample.tabB] Sample.openSavedA).
    + reflexivity.
    + constructor.
    + constructor.
    + split; [reflexivity|]. eexists. split; reflexivity.
    + reflexivity.
  - apply (@closeTab_found Sample.savedWindow 8 [Sample.openSavedA] []
             (makeOpenTabItem Sample.tabB)).
    + reflexivity.
    + repeat constructor. intros _. discriminate.
    + repeat constructor. intros [_ [openState [Hstate Hid]]].
      injection Hstate as <-. discriminate.
    + split; [reflexivity|]. eexists. split; reflexivity.
    + reflexivity.
Defined.

(** C7, a lookup that misses.  On a window whose open items carry their
    open state and none of which has the given tab id, [closeTab] and
    [setActiveTab] both return the window as it is, without an exception. *)
Theorem lookup_miss_is_noop (tabWindow : TabWindow.t) (tabId : Z) :
  Forall openStateOk (TabWindow.tabItems tabWindow) ->
  (forall ti, In ti (TabWindow.tabItems tabWindow) ->
              ~ matchesOpenTabId tabId ti) ->
  closeTab tabWindow tabId = Some tabWindow /\
  setActiveTab tabWindow tabId = Some tabWindow.
Proof.
  intros Hok Hmiss.
  assert (Hentry : Immutable.findEntry (isOpenTabWithId tabId)
                     (TabWindow.tabItems tabWindow) = Some None).
  { apply findEntryFrom_missing. rewrite Forall_forall in *.
    intros ti Hin. apply isOpenTabWithId_false; auto. }
  unfold closeTab, setActiveTab. rewrite Hentry. split; reflexivity.
Qed.

Lemma lookup_miss_is_noop_witness :
  Forall openStateOk (TabWindow.tabItems Sample.savedWindow) /\
  (forall ti, In ti (TabWindow.tabItems Sample.savedWindow) ->
              ~ matchesOpenTabId 99 ti) /\
  closeTab Sample.savedWindow 99 = Some Sample.savedWindow /\
  setActiveTab Sample.savedWindow 99 = Some Sample.savedWindow.
Proof.
  assert (Hok : Forall openStateOk (TabWindow.tabItems Sample.savedWindow))
    by (repeat constructor; intros _; discriminate).
  assert (Hmiss : forall ti, In ti (TabWindow.tabItems Sample.savedWindow) ->
                             ~ matchesOpenTabId 99 ti).
  { intros ti [<-|[<-|[]]] [_ [openState [Hstate Hid]]];
      injection Hstate as <-; discriminate. }
  split; [exact Hok|]. split; [exact Hmiss|].
  apply (@lookup_miss_is_noop Sample.savedWindow 99 Hok Hmiss).
Defined.

(** What [saveTab] returns when the first open item with the tab id of
    [tabItem] is found: [tabItem] is put at its place, marked saved, with
    the saved state that the record constructor reads from the bookmark
    node.  The node has no property called [bookmarkId] or [bookmarkIndex],
    so these two fields are the defaults of the record. *)
Lemma saveTab_found (tabWindow : TabWindow.t) (tabItem : TabItem.t)
    (tabNode : BookmarkTreeNode.t) (openState : OpenTabState.t)
    (pre post : list TabItem.t) (found : TabItem.t) :
  TabItem.openState tabItem = Some openState ->
  TabWindow.tabItems tabWindow = pre ++ found :: post ->
  Forall openStateOk pre ->
  Forall (fun ti => ~ matchesOpenTabId (OpenTabState.openTabId openState) ti) pre ->
  matchesOpenTabId (OpenTabState.openTabId openState) found ->
  saveTab tabWindow tabItem tabNode
  = Some (TabWindow.set_tabItems
            (pre ++ {| TabItem.url := TabItem.url tabItem;
                       TabItem.saved := true;
                       TabItem.savedState :=
                         Some {| SavedTabState.bookmarkId := "";
                                 SavedTabState.bookmarkIndex := 0;
                                 SavedTabState.title :=
                                   lodash_get (BookmarkTreeNode.title tabNode) "";
                                 SavedTabState.url :=
                                   lodash_get (BookmarkTreeNode.url tabNode) "" |};
                       TabItem.open := TabItem.open tabItem;
                       TabItem.openState := TabItem.openState tabItem |} :: post)
            tabWindow).
Proof.
  intros Hstate Hitems Hok Hmiss Hmatch. unfold saveTab.
  rewrite Hstate.
  change (fun ti : TabItem.t =>
            if TabItem.open ti
            then openState0 <- TabItem.openState ti ;;
                 openState' <- Some openState ;;
                 Some (OpenTabState.openTabId openState0
                       =? OpenTabState.openTabId openState')%Z
            else Some false)
    with (isOpenTabWithId (OpenTabState.openTabId openState)).
  rewrite Hitems, findEntry_found.
  - simpl. rewrite splice_at. simpl.
    unfold SavedTabState.new, BookmarkTreeNode.prop. simpl.
    unfold TabItem.set_savedState, TabItem.set_saved. simpl. rewrite Hstate.
    destruct (BookmarkTreeNode.title tabNode), (BookmarkTreeNode.url tabNode);
      reflexivity.
  - rewrite Forall_forall in *. intros ti Hin.
    apply isOpenTabWithId_false; auto.
  - apply isOpenTabWithId_true, Hmatch.
Qed.

(** C5, saving a tab.  The saved state [saveTab] attaches to the item of
    the live tab 8, from the bookmark node with id "42" at index 3, has its
    title and its URL from the node, but the bookmark id "" and the
    bookmark index 0, where [makeSavedTabState] on the same node gives "42"
    and 3. *)
Theorem saveTab_drops_bookmark_id_and_index :
  exists tabWindow' updTabItem savedState,
    saveTab Sample.window (makeOpenTabItem Sample.tabB) Sample.bookmarkB
    = Some tabWindow' /\
    nth_error (TabWindow.tabItems tabWindow') 1 = Some updTabItem /\
    TabItem.saved updTabItem = true /\
    TabItem.savedState updTabItem = Some savedState /\
    SavedTabState.title savedState = "B" /\
    SavedTabState.url savedState = "https://b.com" /\
    SavedTabState.bookmarkId savedState = "" /\
    SavedTabState.bookmarkIndex savedState = 0%Z /\
    BookmarkTreeNode.id Sample.bookmarkB = "42" /\
    BookmarkTreeNode.index Sample.bookmarkB = 3%Z /\
    SavedTabState.bookmarkId (makeSavedTabState Sample.bookmarkB) = "42" /\
    SavedTabState.bookmarkIndex (makeSavedTabState Sample.bookmarkB) = 3%Z.
Proof.
  eexists. eexists. eexists.
  split.
  - apply (@saveTab_found Sample.window (makeOpenTabItem Sample.tabB)
             Sample.bookmarkB (makeOpenTabState Sample.tabB)
             [makeOpenTabItem Sample.tabA] [] (makeOpenTabItem Sample.tabB)).
    + reflexivity.
    + reflexivity.
    + repeat constructor. intros _. discriminate.
    + repeat constructor. intros [_ [openState [Hstate Hid]]].
      injection Hstate as <-. discriminate.
    + split; [reflexivity|]. eexists. split; reflexivity.
  - split; [reflexivity|]. repeat split.
Qed.



Lemma filter_saved_open (openTabs : list Tab.t) :
  filter TabItem.saved (map makeOpenTabItem openTabs) = [].
Proof. induction openTabs as [|tab openTabs IH]; simpl; [reflexivity | exact IH]. Qed.

Lemma filter_all {A : Type} (p : A -> bool) (l : list A) :
  (forall x, In x l -> p x = true) -> filter p l = l.
Proof.
  induction l as [|x l IH]; simpl; intros H.
  - reflexivity.
  - rewrite (H x) by (left; reflexivity). f_equal. apply IH.
    intros y Hy. apply H. right. exact Hy.
Qed.

Lemma filter_none {A : Type} (p : A -> bool) (l : list A) :
  (forall x, In x l -> p x = false) -> filter p l = [].
Proof.
  induction l as [|x l IH]; simpl; intros H.
  - reflexivity.
  - rewrite (H x) by (left; reflexivity). apply IH.
    intros y Hy. apply H. right. exact Hy.
Qed.

(** C8, the round trip.  For a live window with a tab list, reconciling
    the items [makeChromeTabWindow] makes of it with the same tabs returns
    a sequence that is a permutation of these items: the same URLs and the
    same tab indices, each as many times. *)
Theorem reconcile_live_window_roundtrip
    (iterationOrder : list (string * list TabItem.t)
                      -> list (string * list TabItem.t))
    (iterationOrder_perm : forall m, Permutation (iterationOrder m) m)
    (chromeWindow : ChromeWindow.t) (openTabs : list Tab.t) :
  ChromeWindow.tabs chromeWindow = Some openTabs ->
  exists r,
    mergeOpenTabs iterationOrder
      (TabWindow.tabItems (makeChromeTabWindow chromeWindow)) openTabs
    = Some r /\
    Permutation r (TabWindow.tabItems (makeChromeTabWindow chromeWindow)) /\
    Permutation (map TabItem.url r)
      (map TabItem.url (TabWindow.tabItems (makeChromeTabWindow chromeWindow))) /\
    Permutation (map openTabIndexOf r)
      (map openTabIndexOf
         (TabWindow.tabItems (makeChromeTabWindow chromeWindow))).
Proof.
  intros Htabs. unfold makeChromeTabWindow. simpl. rewrite Htabs.
  rewrite mergeOpenTabs_eq, filter_saved_open.
  unfold Immutable.mergeWith. simpl.
  set (flat := flat_map snd
                 (iterationOrder
                    (Immutable.groupBy String.eqb TabItem.url
                       (map makeOpenTabItem openTabs)))).
  assert (Hflat : Permutation flat (map makeOpenTabItem openTabs)).
  { unfold flat. eapply perm_trans.
    - apply Permutation_flat_map, iterationOrder_perm.
    - apply groupBy_perm. }
  assert (Hopen : forall x, In x flat ->
                            exists tab, x = makeOpenTabItem tab).
  { intros x Hx. apply (Permutation_in _ Hflat) in Hx.
    apply in_map_iff in Hx. destruct Hx as [tab [<- _]]. exists tab.
    reflexivity. }
  assert (Hgroup_open : group Bool.eqb TabItem.open true flat = flat).
  { apply filter_all. intros x Hx. destruct (Hopen x Hx) as [tab ->].
    reflexivity. }
  assert (Hgroup_closed : group Bool.eqb TabItem.open false flat = []).
  { apply filter_none. intros x Hx. destruct (Hopen x Hx) as [tab ->].
    reflexivity. }
  rewrite Hgroup_open, Hgroup_closed.
  destruct (@sortBy_total TabItem.t openTabIndexOf flat) as [os Hos].
  { apply Forall_forall. intros x Hx. destruct (Hopen x Hx) as [tab ->].
    discriminate. }
  rewrite Hos. simpl. exists (os ++ []). split; [reflexivity|].
  apply sortBy_inv in Hos. destruct Hos as [Hperm _].
  assert (Hr : Permutation (os ++ []) (map makeOpenTabItem openTabs)).
  { rewrite app_nil_r. eapply perm_trans; eassumption. }
  split; [exact Hr|]. split; apply Permutation_map, Hr.
Qed.

Lemma reconcile_live_window_roundtrip_witness :
  (forall m, Permutation (Sample.insertionOrder m) m) /\
  ChromeWindow.tabs Sample.liveWindow = Some [Sample.tabA; Sample.tabB] /\
  exists r,
    mergeOpenTabs Sample.insertionOrder
      (TabWindow.tabItems (makeChromeTabWindow Sample.liveWindow))
      [Sample.tabA; Sample.tabB]
    = Some r /\
    Permutation r (TabWindow.tabItems (makeChromeTabWindow Sample.liveWindow)) /\
    Permutation (map TabItem.url r)
      (map TabItem.url
         (TabWindow.tabItems (makeChromeTabWindow Sample.liveWindow))) /\
    Permutation (map openTabIndexOf r)
      (map openTabIndexOf
         (TabWindow.tabItems (makeChromeTabWindow Sample.liveWindow))).
Proof.
  assert (Hperm : forall m, Permutation (Sample.insertionOrder m) m)
    by (intros m; apply Permutation_refl).
  split; [exact Hperm|]. split; [reflexivity|].
  apply (@reconcile_live_window_roundtrip Sample.insertionOrder Hperm
           Sample.liveWindow [Sample.tabA; Sample.tabB]).
  reflexivity.
Defined.

(** C9, closing a window.  [removeOpenWindowState] keeps the items with
    [saved = true], in their order, each with [open = false],
    [openState = null] and its saved state; it drops the other items; it
    puts [open], [openWindowId] and [windowType] back to their defaults and
    leaves [saved], [savedTitle] and [savedFolderId] as they are. *)
Theorem removeOpenWindowState_spec (tabWindow : TabWindow.t) :
  TabWindow.tabItems (removeOpenWindowState tabWindow)
  = map (fun ti => {| TabItem.url := TabItem.url ti;
                      TabItem.saved := true;
                      TabItem.savedState := TabItem.savedState ti;
                      TabItem.open := false;
                      TabItem.openState := None |})
        (filter (fun ti => TabItem.saved ti) (TabWindow.tabItems tabWindow)) /\
  TabWindow.open (removeOpenWindowState tabWindow) = false /\
  TabWindow.openWindowId (removeOpenWindowState tabWindow) = (-1)%Z /\
  TabWindow.windowType (removeOpenWindowState tabWindow) = "" /\
  TabWindow.saved (removeOpenWindowState tabWindow)
  = TabWindow.saved tabWindow /\
  TabWindow.savedTitle (removeOpenWindowState tabWindow)
  = TabWindow.savedTitle tabWindow /\
  TabWindow.savedFolderId (removeOpenWindowState tabWindow)
  = TabWindow.savedFolderId tabWindow.
Proof.
  repeat split. simpl. apply map_ext_in. intros ti Hti.
  apply filter_In in Hti. destruct Hti as [_ Hsaved].
  unfold resetSavedItem, TabItem.set_openState, TabItem.set_open. simpl.
  rewrite Hsaved. reflexivity.
Qed.

(** C10, unsaving a window.  [removeSavedWindowState] puts [saved],
    [savedFolderId] and [savedTitle] back to their defaults and changes
    nothing else: the open facet of the window and the whole sequence of
    items, the saved flags and saved states of the items included, are
    returned as they are. *)
Theorem removeSavedWindowState_spec (tabWindow : TabWindow.t) :
  removeSavedWindowState tabWindow
  = {| TabWindow.saved := false;
       TabWindow.savedTitle := "";
       TabWindow.savedFolderId := TabWindow.FolderNumber (-1);
       TabWindow.open := TabWindow.open tabWindow;
       TabWindow.openWindowId := TabWindow.openWindowId tabWindow;
       TabWindow.windowType := TabWindow.windowType tabWindow;
       TabWindow.tabItems := TabWindow.tabItems tabWindow |} /\
  TabWindow.tabItems (removeSavedWindowState tabWindow)
  = TabWindow.tabItems tabWindow /\
  map TabItem.saved (TabWindow.tabItems (removeSavedWindowState tabWindow))
  = map TabItem.saved (TabWindow.tabItems tabWindow) /\
  map TabItem.savedState (TabWindow.tabItems (removeSavedWindowState tabWindow))
  = map TabItem.savedState (TabWindow.tabItems tabWindow).
Proof. repeat split. Qed.

(** [updateWindow] hands [chromeWindow.tabs] to [mergeOpenTabs] as it is:
    on a snapshot without a tab list it throws, where
    [makeChromeTabWindow] takes the list as empty. *)
Lemma updateWindow_without_tabs
    (iterationOrder : list (string * list TabItem.t)
                      -> list (string * list TabItem.t))
    (tabWindow : TabWindow.t) (id : Z) (type : string) :
  updateWindow iterationOrder tabWindow
    {| ChromeWindow.id := id; ChromeWindow.type := type;
       ChromeWindow.tabs := None |} = None /\
  TabWindow.tabItems
    (makeChromeTabWindow
       {| ChromeWindow.id := id; ChromeWindow.type := type;
          ChromeWindow.tabs := None |}) = [].
Proof. split; reflexivity. Qed.

(** * Further properties of the program *)

(** ** The reconciliation as a multiset *)

Section AssocFacts.
Context {K : Type} (eqb : K -> K -> bool).
Hypothesis eqb_spec : forall x y, reflect (x = y) (eqb x y).

Lemma get_app {V : Type} (k : K) (m1 m2 : list (K * V)) :
  Immutable.get eqb k (m1 ++ m2)
  = match Immutable.get eqb k m1 with
    | Some v => Some v
    | None => Immutable.get eqb k m2
    end.
Proof.
  induction m1 as [|[k1 v1] m1 IH]; simpl.
  - reflexivity.
  - destruct (eqb k k1); [reflexivity | exact IH].
Qed.

Lemma get_map_values {V W : Type} (F : K -> V -> W) (k : K) (m : list (K * V)) :
  Immutable.get eqb k (map (fun e => (fst e, F (fst e) (snd e))) m)
  = option_map (F k) (Immutable.get eqb k m).
Proof.
  induction m as [|[k1 v1] m IH]; simpl.
  - reflexivity.
  - destruct (eqb_spec k k1) as [->|Hne]; [reflexivity | exact IH].
Qed.

Lemma get_filter_keys {V : Type} (P : K -> bool) (k : K) (m : list (K * V)) :
  Immutable.get eqb k (filter (fun e => P (fst e)) m)
  = if P k then Immutable.get eqb k m else None.
Proof.
  induction m as [|[k1 v1] m IH]; simpl.
  - destruct (P k); reflexivity.
  - destruct (P k1) eqn:HP; simpl.
    + destruct (eqb_spec k k1) as [->|Hne].
      * rewrite HP. reflexivity.
      * exact IH.
    + destruct (eqb_spec k k1) as [->|Hne].
      * rewrite IH, HP. reflexivity.
      * exact IH.
Qed.

Lemma get_keys {V : Type} (k : K) (m : list (K * V)) :
  In k (map fst m) <-> Immutable.get eqb k m <> None.
Proof.
  induction m as [|[k1 v1] m IH]; simpl.
  - split; [intros [] | intros H; apply H; reflexivity].
  - destruct (eqb_spec k k1) as [->|Hne].
    + split; [discriminate | auto].
    + rewrite <- IH. split; [intros [H|H]; [congruence | exact H] | auto].
Qed.

(** Two maps with the same entry at every key hold the same entries. *)
Lemma assoc_perm {V : Type} (m m' : list (K * V)) :
  NoDup (map fst m) -> NoDup (map fst m') ->
  (forall k, Immutable.get eqb k m = Immutable.get eqb k m') ->
  Permutation m m'.
Proof.
  intros Hm Hm' Hget. apply NoDup_Permutation.
  - eapply NoDup_map_inv, Hm.
  - eapply NoDup_map_inv, Hm'.
  - intros [k v]. split; intros Hin.
    + apply (get_In _ eqb_spec). rewrite <- Hget.
      apply (In_get _ eqb_spec); assumption.
    + apply (get_In _ eqb_spec). rewrite Hget.
      apply (In_get _ eqb_spec); assumption.
Qed.

Lemma NoDup_filter_keys {V : Type} (P : K * V -> bool) (m : list (K * V)) :
  NoDup (map fst m) -> NoDup (map fst (filter P m)).
Proof.
  induction m as [|e m IH]; simpl; intros Hm.
  - constructor.
  - inversion Hm as [|? ? Hnotin Hrest]; subst.
    destruct (P e); simpl; [|apply IH, Hrest].
    constructor; [|apply IH, Hrest].
    intros Hin. apply Hnotin. apply in_map_iff in Hin.
    destruct Hin as [e' [He' Hin]]. apply filter_In in Hin.
    apply in_map_iff. exists e'. tauto.
Qed.

(** The groups of [groupBy] hold the items the grouper sends to their
    key. *)
Lemma groupBy_consistent {A : Type} (grouper : A -> K) (l : list A)
    (e : K * list A) (x : A) :
  In e (Immutable.groupBy eqb grouper l) -> In x (snd e) ->
  grouper x = fst e.
Proof.
  destruct e as [k v]. simpl. intros He Hx.
  apply (In_get _ eqb_spec) in He; [|apply NoDup_groupBy, eqb_spec].
  rewrite get_groupBy in He by exact eqb_spec.
  destruct (group eqb grouper k l) as [|y g] eqn:E; [discriminate|].
  injection He as <-. rewrite <- E in Hx.
  apply (In_group _ eqb_spec) in Hx. tauto.
Qed.

Lemma flat_map_groups {A B : Type} (grouper : A -> K) (h : K -> A -> B)
    (groups : list (K * list A)) :
  (forall e x, In e groups -> In x (snd e) -> grouper x = fst e) ->
  flat_map (fun e => map (h (fst e)) (snd e)) groups
  = map (fun x => h (grouper x) x) (flat_map snd groups).
Proof.
  induction groups as [|e groups IH]; simpl; intros H.
  - reflexivity.
  - rewrite map_app, IH by (intros e' x He' Hx; apply H; auto).
    f_equal. apply map_ext_in. intros x Hx.
    rewrite (H e x) by auto. reflexivity.
Qed.

Lemma flat_map_filter_groups {A : Type} (grouper : A -> K) (P : K -> bool)
    (groups : list (K * list A)) :
  (forall e x, In e groups -> In x (snd e) -> grouper x = fst e) ->
  flat_map snd (filter (fun e => P (fst e)) groups)
  = filter (fun x => P (grouper x)) (flat_map snd groups).
Proof.
  induction groups as [|e groups IH]; simpl; intros H.
  - reflexivity.
  - rewrite filter_app, <- IH by (intros e' x He' Hx; apply H; auto).
    assert (Hgroup : forall x, In x (snd e) -> P (grouper x) = P (fst e)).
    { intros x Hx. rewrite (H e x) by auto. reflexivity. }
    destruct (P (fst e)) eqn:HP; simpl.
    + f_equal. symmetry. clear IH H. induction (snd e) as [|x v IHv]; simpl.
      * reflexivity.
      * rewrite (Hgroup x) by (left; reflexivity). f_equal.
        apply IHv. intros y Hy. apply Hgroup. right. exact Hy.
    + clear IH H. induction (snd e) as [|x v IHv]; simpl.
      * reflexivity.
      * rewrite (Hgroup x) by (left; reflexivity).
        apply IHv. intros y Hy. apply Hgroup. right. exact Hy.
Qed.
End AssocFacts.

Lemma Permutation_filter' {A : Type} (p : A -> bool) (l l' : list A) :
  Permutation l l' -> Permutation (filter p l) (filter p l').
Proof.
  induction 1 as [|x l l' _ IH|x y l|l l' l'' _ IH1 _ IH2]; simpl.
  - constructor.
  - destruct (p x); [apply perm_skip|]; exact IH.
  - destruct (p x), (p y); try apply Permutation_refl. apply perm_swap.
  - eapply perm_trans; eassumption.
Qed.

Lemma Permutation_partition {A : Type} (p : A -> bool) (l : list A) :
  Permutation (filter p l ++ filter (fun x => negb (p x)) l) l.
Proof.
  induction l as [|x l IH]; simpl.
  - constructor.
  - destruct (p x); simpl.
    + apply perm_skip, IH.
    + apply Permutation_sym. eapply perm_trans.
      * apply perm_skip, Permutation_sym, IH.
      * apply Permutation_middle.
Qed.

Lemma filter_base_saved (P : string -> bool) (tabItems : list TabItem.t) :
  filter (fun x => P (TabItem.url x))
         (map resetSavedItem (filter TabItem.saved tabItems))
  = map resetSavedItem
        (filter (fun ti => TabItem.saved ti && P (TabItem.url ti)) tabItems).
Proof.
  induction tabItems as [|ti tabItems IH]; simpl.
  - reflexivity.
  - destruct (TabItem.saved ti); simpl; [|exact IH].
    destruct (P (TabItem.url ti)); simpl; [f_equal|]; exact IH.
Qed.

(** How one open item is merged with the saved map. *)
Lemma reconciledOpenItem_merge (tabItems : list TabItem.t) (tab : Tab.t) :
  match
    match
      Immutable.get String.eqb (TabItem.url (makeOpenTabItem tab))
        (Immutable.groupBy String.eqb TabItem.url
           (map resetSavedItem (filter TabItem.saved tabItems)))
    with
    | Some (savedItem :: _) => Some savedItem
    | _ => None
    end
  with
  | Some savedItem =>
      TabItem.set_savedState (TabItem.savedState savedItem)
        (TabItem.set_saved true (makeOpenTabItem tab))
  | None => makeOpenTabItem tab
  end
  = reconciledOpenItem tabItems tab.
Proof.
  rewrite get_groupBy by apply String.eqb_spec.
  pose proof (hd_saved_group (TabItem.url (makeOpenTabItem tab)) tabItems) as Hhd.
  unfold reconciledOpenItem.
  destruct (group String.eqb TabItem.url _ _) as [|s g]; simpl in Hhd;
    destruct (firstSavedAt _ tabItems) as [s0|]; try discriminate.
  - reflexivity.
  - injection Hhd as ->. reflexivity.
Qed.

(** The merged map holds the reconciliation, each item once. *)
Lemma mergedMap_perm (tabItems : list TabItem.t) (openTabs : list Tab.t) :
  exists mergedMap,
    Immutable.mergeWith String.eqb mergeTabItems
      (Immutable.groupBy String.eqb TabItem.url (map makeOpenTabItem openTabs))
      (Immutable.groupBy String.eqb TabItem.url
         (map resetSavedItem (filter TabItem.saved tabItems)))
    = Some mergedMap /\
    Permutation (flat_map snd mergedMap) (reconciliation tabItems openTabs).
Proof.
  set (openItems := map makeOpenTabItem openTabs).
  set (baseSavedItems := map resetSavedItem (filter TabItem.saved tabItems)).
  set (O := Immutable.groupBy String.eqb TabItem.url openItems).
  set (S := Immutable.groupBy String.eqb TabItem.url baseSavedItems).
  destruct (@mergeWith_get string String.eqb String.eqb_spec (list TabItem.t)
              mergeTabItems mergeGroups S O)
    as [mergedMap [Hmerge [Hnodup Hget]]].
  - apply NoDup_groupBy, String.eqb_spec.
  - apply NoDup_groupBy, String.eqb_spec.
  - intros k v' Hk v. unfold S in Hk.
    rewrite get_groupBy in Hk by apply String.eqb_spec.
    destruct (group String.eqb TabItem.url k baseSavedItems) as [|s g];
      [discriminate|].
    injection Hk as <-. apply mergeTabItems_cons.
  - exists mergedMap. split; [exact Hmerge|].
    set (h := fun (k : string) (x : TabItem.t) =>
                match
                  match Immutable.get String.eqb k S with
                  | Some (savedItem :: _) => Some savedItem
                  | _ => None
                  end
                with
                | Some savedItem =>
                    TabItem.set_savedState (TabItem.savedState savedItem)
                      (TabItem.set_saved true x)
                | None => x
                end).
    set (notLive := fun k : string =>
                      match Immutable.get String.eqb k O with
                      | None => true
                      | Some _ => false
                      end).
    set (explicit :=
           map (fun e => (fst e, map (h (fst e)) (snd e))) O
           ++ filter (fun e => notLive (fst e)) S).
    assert (Hperm : Permutation mergedMap explicit).
    { apply (assoc_perm _ String.eqb_spec); [exact Hnodup | |].
      - unfold explicit. rewrite map_app, map_map. simpl.
        apply NoDup_app.
        + apply NoDup_groupBy, String.eqb_spec.
        + apply NoDup_filter_keys, NoDup_groupBy, String.eqb_spec.
        + intros k Hk HkS. apply in_map_iff in HkS.
          destruct HkS as [e [<- He]]. apply filter_In in He.
          destruct He as [_ He]. unfold notLive in He.
          apply (get_keys _ String.eqb_spec) in Hk.
          destruct (Immutable.get String.eqb (fst e) O);
            [discriminate | apply Hk; reflexivity].
      - intros k. rewrite Hget. unfold explicit.
        rewrite get_app, (get_map_values _ String.eqb_spec (fun k v => map (h k) v)).
        rewrite get_filter_keys by apply String.eqb_spec.
        unfold notLive, h.
        destruct (Immutable.get String.eqb k O) as [v|] eqn:EO; simpl.
        + destruct (Immutable.get String.eqb k S) as [[|s sg]|] eqn:ES; simpl.
          * exfalso. unfold S in ES.
            rewrite get_groupBy in ES by apply String.eqb_spec.
            destruct (group String.eqb TabItem.url k baseSavedItems);
              discriminate.
          * reflexivity.
          * rewrite map_id. reflexivity.
        + reflexivity. }
    eapply perm_trans; [apply Permutation_flat_map, Hperm|].
    unfold explicit, reconciliation. rewrite flat_map_app.
    apply Permutation_app.
    + rewrite flat_map_concat_map, map_map. simpl.
      rewrite <- flat_map_concat_map.
      rewrite (flat_map_groups TabItem.url h O)
        by (intros e x; apply groupBy_consistent, String.eqb_spec).
      eapply perm_trans.
      * apply Permutation_map, groupBy_perm.
      * unfold openItems. rewrite map_map.
        erewrite map_ext; [apply Permutation_refl|].
        intros tab. unfold h, S, baseSavedItems.
        apply reconciledOpenItem_merge.
    + rewrite (flat_map_filter_groups TabItem.url notLive S)
        by (intros e x; apply groupBy_consistent, String.eqb_spec).
      eapply perm_trans.
      * apply Permutation_filter', groupBy_perm.
      * unfold baseSavedItems. rewrite filter_base_saved.
        erewrite filter_ext; [apply Permutation_refl|].
        intros ti. unfold unmatched, notLive, O. f_equal.
        rewrite get_groupBy by apply String.eqb_spec.
        unfold group, openItems.
        clear. induction openTabs as [|tab openTabs IH]; simpl.
        -- reflexivity.
        -- destruct (String.eqb (TabItem.url ti)
                       (lodash_get (Tab.url tab) "")); [reflexivity | exact IH].
Qed.

Lemma sortBy_defined {A : Type} (mapper : A -> option Z) (l r : list A) :
  Immutable.sortBy mapper l = Some r ->
  Forall (fun v => mapper v <> None) r.
Proof.
  intros H. pose proof (sortBy_inv _ _ H) as [Hperm _].
  unfold Immutable.sortBy in H.
  apply bind_Some in H. destruct H as [entries [He _]].
  apply sortBy_entries in He. destruct He as [Hl Hkeys].
  eapply Permutation_Forall; [apply Permutation_sym, Hperm|].
  rewrite <- Hl. apply Forall_map.
  eapply Forall_impl; [|exact Hkeys]. intros e He. simpl in He.
  rewrite He. discriminate.
Qed.

Lemma reconciliation_open (tabItems : list TabItem.t) (openTabs : list Tab.t) :
  filter TabItem.open (reconciliation tabItems openTabs)
  = map (reconciledOpenItem tabItems) openTabs.
Proof.
  unfold reconciliation. rewrite filter_app.
  rewrite filter_all, filter_none.
  - apply app_nil_r.
  - intros x Hx. apply in_map_iff in Hx. destruct Hx as [ti [<- _]].
    reflexivity.
  - intros x Hx. apply in_map_iff in Hx. destruct Hx as [tab [<- _]].
    apply reconciledOpenItem_open.
Qed.

Lemma reconciliation_closed (tabItems : list TabItem.t) (openTabs : list Tab.t) :
  filter (fun x => negb (TabItem.open x)) (reconciliation tabItems openTabs)
  = map resetSavedItem (filter (unmatched openTabs) tabItems).
Proof.
  unfold reconciliation. rewrite filter_app.
  rewrite filter_none, filter_all.
  - reflexivity.
  - intros x Hx. apply in_map_iff in Hx. destruct Hx as [ti [<- _]].
    reflexivity.
  - intros x Hx. apply in_map_iff in Hx. destruct Hx as [tab [<- _]].
    rewrite (proj1 (reconciledOpenItem_open tabItems tab)). reflexivity.
Qed.

Section ReconciliationMultiset.
Variable iterationOrder :
  list (string * list TabItem.t) -> list (string * list TabItem.t).
Hypothesis iterationOrder_perm :
  forall m, Permutation (iterationOrder m) m.

(** The result holds the items of the reconciliation, each as many times,
    and its closed items carry their saved state. *)
Lemma mergeOpenTabs_perm (tabItems : list TabItem.t) (openTabs : list Tab.t)
    (r : list TabItem.t) :
  mergeOpenTabs iterationOrder tabItems openTabs = Some r ->
  Permutation r (reconciliation tabItems openTabs) /\
  Forall (fun x => TabItem.open x = false -> TabItem.savedState x <> None) r.
Proof.
  rewrite mergeOpenTabs_eq.
  destruct (mergedMap_perm tabItems openTabs) as [mergedMap [-> Hmerged]].
  simpl. intros H.
  apply bind_Some in H. destruct H as [os [Hos H]].
  apply bind_Some in H. destruct H as [cs [Hcs H]]. injection H as <-.
  pose proof (sortBy_defined _ _ Hcs) as Hdefined.
  apply sortBy_inv in Hos. destruct Hos as [Hperm_os _].
  apply sortBy_inv in Hcs. destruct Hcs as [Hperm_cs _].
  split.
  - eapply perm_trans; [apply Permutation_app; eassumption|].
    eapply perm_trans; [|exact Hmerged].
    eapply perm_trans;
      [|apply Permutation_flat_map, iterationOrder_perm].
    unfold group.
    replace (filter (fun v => Bool.eqb false (TabItem.open v))
               (flat_map snd (iterationOrder mergedMap)))
      with (filter (fun v => negb (Bool.eqb true (TabItem.open v)))
              (flat_map snd (iterationOrder mergedMap))).
    + apply (Permutation_partition (fun v => Bool.eqb true (TabItem.open v))).
    + apply filter_ext. intros v. destruct (TabItem.open v); reflexivity.
  - apply Forall_app. split.
    + apply Forall_forall. intros x Hx Hclosed.
      apply (Permutation_in _ Hperm_os) in Hx.
      apply (In_group _ Bool.eqb_spec) in Hx. destruct Hx as [_ Hx].
      congruence.
    + eapply Forall_impl; [|exact Hdefined]. intros x Hx _.
      unfold bookmarkIndexOf in Hx.
      destruct (TabItem.savedState x); [discriminate|].
      exfalso. apply Hx. reflexivity.
Qed.

(** The merge does not throw when the saved items it must output closed
    carry their saved state. *)
Lemma mergeOpenTabs_total_unmatched (tabItems : list TabItem.t)
    (openTabs : list Tab.t) :
  Forall (fun ti => unmatched openTabs ti = true ->
                    TabItem.savedState ti <> None) tabItems ->
  exists r, mergeOpenTabs iterationOrder tabItems openTabs = Some r.
Proof.
  intros Hok. rewrite mergeOpenTabs_eq.
  destruct (mergedMap_perm tabItems openTabs) as [mergedMap [-> Hmerged]].
  simpl.
  assert (Hflat : forall x,
             In x (flat_map snd (iterationOrder mergedMap)) ->
             In x (reconciliation tabItems openTabs)).
  { intros x Hx. apply (Permutation_in _ Hmerged).
    eapply Permutation_in; [|exact Hx].
    apply Permutation_flat_map, iterationOrder_perm. }
  destruct (@sortBy_total TabItem.t openTabIndexOf
              (group Bool.eqb TabItem.open true
                 (flat_map snd (iterationOrder mergedMap)))) as [os Hos].
  { apply Forall_forall. intros x Hx.
    apply (In_group _ Bool.eqb_spec) in Hx. destruct Hx as [Hx Hopen].
    apply Hflat in Hx. apply in_app_or in Hx. destruct Hx as [Hx|Hx];
      apply in_map_iff in Hx.
    - destruct Hx as [tab [<- _]]. unfold openTabIndexOf.
      rewrite (proj2 (reconciledOpenItem_open tabItems tab)). discriminate.
    - destruct Hx as [ti [<- _]]. discriminate. }
  destruct (@sortBy_total TabItem.t bookmarkIndexOf
              (group Bool.eqb TabItem.open false
                 (flat_map snd (iterationOrder mergedMap)))) as [cs Hcs].
  { apply Forall_forall. intros x Hx.
    apply (In_group _ Bool.eqb_spec) in Hx. destruct Hx as [Hx Hopen].
    apply Hflat in Hx. apply in_app_or in Hx. destruct Hx as [Hx|Hx];
      apply in_map_iff in Hx.
    - destruct Hx as [tab [<- _]].
      rewrite (proj1 (reconciledOpenItem_open tabItems tab)) in Hopen.
      discriminate.
    - destruct Hx as [ti [<- Hti]]. apply filter_In in Hti.
      destruct Hti as [Hin Hunmatched].
      rewrite Forall_forall in Hok. specialize (Hok ti Hin Hunmatched).
      unfold bookmarkIndexOf. simpl.
      destruct (TabItem.savedState ti); [discriminate | contradiction]. }
  rewrite Hos. simpl. rewrite Hcs. simpl. eexists. reflexivity.
Qed.
End ReconciliationMultiset.

(** X1.  A sequence [mergeOpenTabs] returns holds exactly one item per
    live tab (its open item, with the saved state of the first saved item
    of its URL if there is one) and one closed item per saved item whose
    URL no live tab has: no tab and no unmatched bookmark is lost or
    doubled. *)
Theorem mergeOpenTabs_multiset
    (iterationOrder : list (string * list TabItem.t)
                      -> list (string * list TabItem.t))
    (iterationOrder_perm : forall m, Permutation (iterationOrder m) m)
    (tabItems : list TabItem.t) (openTabs : list Tab.t) (r : list TabItem.t) :
  mergeOpenTabs iterationOrder tabItems openTabs = Some r ->
  Permutation r
    (map (reconciledOpenItem tabItems) openTabs
     ++ map resetSavedItem (filter (unmatched openTabs) tabItems)).
Proof.
  intros Hr. apply (mergeOpenTabs_perm _ iterationOrder_perm _ _ Hr).
Qed.

Lemma mergeOpenTabs_multiset_witness :
  (forall m, Permutation (Sample.insertionOrder m) m) /\
  mergeOpenTabs Sample.insertionOrder [Sample.savedA] [Sample.tabB]
  = Some [makeOpenTabItem Sample.tabB; Sample.savedA] /\
  Permutation [makeOpenTabItem Sample.tabB; Sample.savedA]
    (map (reconciledOpenItem [Sample.savedA]) [Sample.tabB]
     ++ map resetSavedItem (filter (unmatched [Sample.tabB]) [Sample.savedA])).
Proof.
  assert (Hperm : forall m, Permutation (Sample.insertionOrder m) m)
    by (intros m; apply Permutation_refl).
  assert (Hr : mergeOpenTabs Sample.insertionOrder [Sample.savedA] [Sample.tabB]
               = Some [makeOpenTabItem Sample.tabB; Sample.savedA])
    by reflexivity.
  split; [exact Hperm|]. split; [exact Hr|].
  apply (@mergeOpenTabs_multiset Sample.insertionOrder Hperm
           [Sample.savedA] [Sample.tabB] _ Hr).
Defined.

(** X2.  After [updateWindow] the window has as many open items as the
    snapshot has tabs, and as many closed items as the input window had
    saved items whose URL no tab of the snapshot has. *)
Theorem updateWindow_openTabCount
    (iterationOrder : list (string * list TabItem.t)
                      -> list (string * list TabItem.t))
    (iterationOrder_perm : forall m, Permutation (iterationOrder m) m)
    (tabWindow updWindow : TabWindow.t) (chromeWindow : ChromeWindow.t) :
  updateWindow iterationOrder tabWindow chromeWindow = Some updWindow ->
  exists openTabs,
    ChromeWindow.tabs chromeWindow = Some openTabs /\
    openTabCount updWindow = List.length openTabs /\
    List.length (TabWindow.tabItems updWindow)
    = (List.length openTabs
       + List.length (filter (unmatched openTabs)
                        (TabWindow.tabItems tabWindow)))%nat.
Proof.
  unfold updateWindow. intros H.
  apply bind_Some in H. destruct H as [openTabs [Htabs H]].
  apply bind_Some in H. destruct H as [r [Hr H]]. injection H as <-.
  exists openTabs. split; [exact Htabs|].
  apply (mergeOpenTabs_perm _ iterationOrder_perm) in Hr.
  destruct Hr as [Hr _]. unfold openTabCount. simpl. split.
  - rewrite (Permutation_length (Permutation_filter' TabItem.open Hr)).
    rewrite reconciliation_open. apply length_map.
  - rewrite (Permutation_length Hr). unfold reconciliation.
    rewrite length_app, !length_map. reflexivity.
Qed.

Lemma updateWindow_openTabCount_witness :
  (forall m, Permutation (Sample.insertionOrder m) m) /\
  exists updWindow,
    updateWindow Sample.insertionOrder
      (TabWindow.set_tabItems [Sample.savedA] TabWindow.default)
      Sample.liveWindow = Some updWindow /\
    openTabCount updWindow = 2%nat.
Proof.
  assert (Hperm : forall m, Permutation (Sample.insertionOrder m) m)
    by (intros m; apply Permutation_refl).
  split; [exact Hperm|].
  eexists. split; [reflexivity|].
  destruct (@updateWindow_openTabCount Sample.insertionOrder Hperm
              (TabWindow.set_tabItems [Sample.savedA] TabWindow.default)
              _ Sample.liveWindow eq_refl)
    as [openTabs [Htabs [Hcount _]]].
  injection Htabs as <-. exact Hcount.
Defined.

Lemma unmatched_open_item (tabItems : list TabItem.t) (openTabs : list Tab.t)
    (tab : Tab.t) :
  In tab openTabs -> unmatched openTabs (reconciledOpenItem tabItems tab) = false.
Proof.
  intros Htab. unfold unmatched.
  replace (existsb _ openTabs) with true; [apply andb_false_r|].
  symmetry. apply existsb_exists. exists tab. split; [exact Htab|].
  unfold reconciledOpenItem.
  destruct (firstSavedAt _ tabItems); simpl; apply String.eqb_refl.
Qed.

Lemma unmatched_reconciliation (tabItems : list TabItem.t)
    (openTabs : list Tab.t) :
  filter (unmatched openTabs) (reconciliation tabItems openTabs)
  = map resetSavedItem (filter (unmatched openTabs) tabItems).
Proof.
  unfold reconciliation. rewrite filter_app.
  rewrite filter_none, filter_all.
  - reflexivity.
  - intros x Hx. apply in_map_iff in Hx. destruct Hx as [ti [<- Hti]].
    apply filter_In in Hti. destruct Hti as [_ Hti]. exact Hti.
  - intros x Hx. apply in_map_iff in Hx. destruct Hx as [tab [<- Htab]].
    apply unmatched_open_item, Htab.
Qed.

(** In a reconciliation, the saved items of the URL of a live tab all
    have the saved state of the first saved item of that URL. *)
Lemma reconciledOpenItem_stable (tabItems r : list TabItem.t)
    (openTabs : list Tab.t) (tab : Tab.t) :
  Permutation r (reconciliation tabItems openTabs) ->
  In tab openTabs ->
  reconciledOpenItem r tab = reconciledOpenItem tabItems tab.
Proof.
  intros Hr Htab.
  set (u := TabItem.url (makeOpenTabItem tab)).
  assert (Hsaved : forall x,
             In x r -> TabItem.saved x = true -> TabItem.url x = u ->
             exists tab', x = reconciledOpenItem tabItems tab' /\
                          TabItem.url (makeOpenTabItem tab') = u).
  { intros x Hx Hs Hu. apply (Permutation_in _ Hr) in Hx.
    apply in_app_or in Hx. destruct Hx as [Hx|Hx]; apply in_map_iff in Hx.
    - destruct Hx as [tab' [<- _]]. exists tab'. split; [reflexivity|].
      rewrite <- Hu. unfold reconciledOpenItem.
      destruct (firstSavedAt _ tabItems); reflexivity.
    - destruct Hx as [ti [<- Hti]]. apply filter_In in Hti.
      destruct Hti as [_ Hti]. exfalso. unfold unmatched in Hti.
      apply andb_prop in Hti. destruct Hti as [_ Hti].
      apply negb_true_iff in Hti.
      assert (Hex : existsb (fun tab0 =>
                               String.eqb (TabItem.url ti)
                                 (TabItem.url (makeOpenTabItem tab0)))
                            openTabs = true).
      { apply existsb_exists. exists tab. split; [exact Htab|].
        simpl in Hu. rewrite Hu. apply String.eqb_refl. }
      congruence. }
  unfold reconciledOpenItem at 1 2. fold u.
  destruct (firstSavedAt u tabItems) as [s|] eqn:Hfirst.
  - destruct (firstSavedAt u r) as [x|] eqn:Hfirst_r.
    + unfold firstSavedAt in Hfirst_r. apply find_some in Hfirst_r.
      destruct Hfirst_r as [Hx Hp]. apply andb_prop in Hp.
      destruct Hp as [Hs Hu]. apply String.eqb_eq in Hu.
      destruct (Hsaved x Hx Hs (eq_sym Hu)) as [tab' [-> Hu']].
      unfold reconciledOpenItem. rewrite Hu', Hfirst. reflexivity.
    + exfalso. unfold firstSavedAt in Hfirst_r.
      assert (Hin : In (reconciledOpenItem tabItems tab) r).
      { apply (Permutation_in _ (Permutation_sym Hr)).
        apply in_or_app. left. apply in_map, Htab. }
      pose proof (find_none _ _ Hfirst_r _ Hin) as Hp.
      unfold reconciledOpenItem in Hp. fold u in Hp. rewrite Hfirst in Hp.
      simpl in Hp. fold u in Hp. rewrite String.eqb_refl in Hp.
      discriminate.
  - rewrite firstSavedAt_None; [reflexivity|].
    intros x Hx Hs Hu.
    destruct (Hsaved x Hx Hs Hu) as [tab' [-> Hu']].
    unfold reconciledOpenItem in Hs. rewrite Hu', Hfirst in Hs.
    discriminate.
Qed.

Lemma resetSavedItem_idempotent (ti : TabItem.t) :
  resetSavedItem (resetSavedItem ti) = resetSavedItem ti.
Proof. reflexivity. Qed.

Lemma reconciliation_again (tabItems r : list TabItem.t)
    (openTabs : list Tab.t) :
  Permutation r (reconciliation tabItems openTabs) ->
  Permutation (reconciliation r openTabs) r.
Proof.
  intros Hr. eapply perm_trans; [|apply Permutation_sym, Hr].
  unfold reconciliation at 1 2. apply Permutation_app.
  - erewrite map_ext_in; [apply Permutation_refl|].
    intros tab Htab. eapply reconciledOpenItem_stable; eassumption.
  - eapply perm_trans.
    + apply Permutation_map, Permutation_filter', Hr.
    + rewrite unmatched_reconciliation, map_map.
      erewrite map_ext; [apply Permutation_refl|].
      intros ti. apply resetSavedItem_idempotent.
Qed.

(** X3.  Reconciling the result of a reconciliation with the same live
    tabs again does not throw and returns the same items, each as many
    times: the merge is idempotent up to the order of items with equal
    sort keys. *)
Theorem mergeOpenTabs_idempotent
    (iterationOrder : list (string * list TabItem.t)
                      -> list (string * list TabItem.t))
    (iterationOrder_perm : forall m, Permutation (iterationOrder m) m)
    (tabItems : list TabItem.t) (openTabs : list Tab.t) (r : list TabItem.t) :
  mergeOpenTabs iterationOrder tabItems openTabs = Some r ->
  exists r',
    mergeOpenTabs iterationOrder r openTabs = Some r' /\ Permutation r' r.
Proof.
  intros Hr.
  apply (mergeOpenTabs_perm _ iterationOrder_perm) in Hr.
  destruct Hr as [Hperm Hclosed].
  destruct (@mergeOpenTabs_total_unmatched iterationOrder iterationOrder_perm
              r openTabs)
    as [r' Hr'].
  - rewrite Forall_forall in *. intros x Hx Hunmatched.
    apply (Hclosed x Hx).
    apply (Permutation_in _ Hperm) in Hx.
    apply in_app_or in Hx. destruct Hx as [Hx|Hx]; apply in_map_iff in Hx.
    + destruct Hx as [tab [<- Htab]].
      rewrite unmatched_open_item in Hunmatched by exact Htab. discriminate.
    + destruct Hx as [ti [<- _]]. reflexivity.
  - exists r'. split; [exact Hr'|].
    apply (mergeOpenTabs_perm _ iterationOrder_perm) in Hr'.
    destruct Hr' as [Hperm' _].
    eapply perm_trans; [exact Hperm'|].
    eapply reconciliation_again, Hperm.
Qed.

Lemma mergeOpenTabs_idempotent_witness :
  (forall m, Permutation (Sample.insertionOrder m) m) /\
  mergeOpenTabs Sample.insertionOrder [Sample.savedA]
    [Sample.tabB; Sample.tabA]
  = Some [Sample.openSavedA; makeOpenTabItem Sample.tabB] /\
  exists r',
    mergeOpenTabs Sample.insertionOrder
      [Sample.openSavedA; makeOpenTabItem Sample.tabB]
      [Sample.tabB; Sample.tabA] = Some r' /\
    Permutation r' [Sample.openSavedA; makeOpenTabItem Sample.tabB].
Proof.
  assert (Hperm : forall m, Permutation (Sample.insertionOrder m) m)
    by (intros m; apply Permutation_refl).
  assert (Hr : mergeOpenTabs Sample.insertionOrder [Sample.savedA]
                 [Sample.tabB; Sample.tabA]
               = Some [Sample.openSavedA; makeOpenTabItem Sample.tabB])
    by reflexivity.
  split; [exact Hperm|]. split; [exact Hr|].
  apply (@mergeOpenTabs_idempotent Sample.insertionOrder Hperm
           [Sample.savedA] [Sample.tabB; Sample.tabA] _ Hr).
Defined.

(** X4.  A snapshot with an empty tab list leaves a window with no open
    item, whose items are those [removeOpenWindowState] keeps (the saved
    items, reset to closed), each as many times; the window itself stays
    flagged open. *)
Theorem updateWindow_no_tabs
    (iterationOrder : list (string * list TabItem.t)
                      -> list (string * list TabItem.t))
    (iterationOrder_perm : forall m, Permutation (iterationOrder m) m)
    (tabWindow updWindow : TabWindow.t) (chromeWindow : ChromeWindow.t) :
  ChromeWindow.tabs chromeWindow = Some [] ->
  updateWindow iterationOrder tabWindow chromeWindow = Some updWindow ->
  Permutation (TabWindow.tabItems updWindow)
    (TabWindow.tabItems (removeOpenWindowState tabWindow)) /\
  openTabCount updWindow = 0%nat /\
  TabWindow.open updWindow = true.
Proof.
  unfold updateWindow. intros Htabs H. rewrite Htabs in H. simpl in H.
  apply bind_Some in H. destruct H as [r [Hr H]]. injection H as <-.
  apply (mergeOpenTabs_perm _ iterationOrder_perm) in Hr.
  destruct Hr as [Hr _].
  assert (Hrec : reconciliation (TabWindow.tabItems tabWindow) []
                 = map resetSavedItem
                     (filter TabItem.saved (TabWindow.tabItems tabWindow))).
  { unfold reconciliation. simpl. f_equal. apply filter_ext.
    intros ti. unfold unmatched. simpl. apply andb_true_r. }
  rewrite Hrec in Hr. unfold openTabCount. simpl.
  split; [exact Hr|]. split; [|reflexivity].
  rewrite (Permutation_length (Permutation_filter' TabItem.open Hr)).
  rewrite filter_none; [reflexivity|].
  intros x Hx. apply in_map_iff in Hx. destruct Hx as [ti [<- _]].
  reflexivity.
Qed.

Lemma updateWindow_no_tabs_witness :
  (forall m, Permutation (Sample.insertionOrder m) m) /\
  exists updWindow,
    updateWindow Sample.insertionOrder Sample.savedWindow
      {| ChromeWindow.id := 1; ChromeWindow.type := "normal";
         ChromeWindow.tabs := Some [] |} = Some updWindow /\
    Permutation (TabWindow.tabItems updWindow)
      (TabWindow.tabItems (removeOpenWindowState Sample.savedWindow)) /\
    openTabCount updWindow = 0%nat /\
    TabWindow.open updWindow = true.
Proof.
  assert (Hperm : forall m, Permutation (Sample.insertionOrder m) m)
    by (intros m; apply Permutation_refl).
  split; [exact Hperm|].
  eexists. split; [reflexivity|].
  apply (@updateWindow_no_tabs Sample.insertionOrder Hperm
           Sample.savedWindow _
           {| ChromeWindow.id := 1; ChromeWindow.type := "normal";
              ChromeWindow.tabs := Some [] |});
    reflexivity.
Defined.

(** X5.  Every item of a sequence [mergeOpenTabs] returns has a facet
    (it is saved or open) and, when it is open, its open state; when the
    saved items of the prior sequence carry their saved state, so do the
    saved items of the result. *)
Theorem mergeOpenTabs_well_formed
    (iterationOrder : list (string * list TabItem.t)
                      -> list (string * list TabItem.t))
    (iterationOrder_perm : forall m, Permutation (iterationOrder m) m)
    (tabItems : list TabItem.t) (openTabs : list Tab.t) (r : list TabItem.t) :
  mergeOpenTabs iterationOrder tabItems openTabs = Some r ->
  Forall hasFacet r /\
  Forall openStateOk r /\
  (Forall savedStateOk tabItems -> Forall savedStateOk r).
Proof.
  intros Hr. apply (mergeOpenTabs_perm _ iterationOrder_perm) in Hr.
  destruct Hr as [Hperm _].
  assert (Hcases : forall x, In x r ->
             (exists tab, x = reconciledOpenItem tabItems tab) \/
             (exists ti, In ti tabItems /\ TabItem.saved ti = true /\
                         x = resetSavedItem ti)).
  { intros x Hx. apply (Permutation_in _ Hperm) in Hx.
    apply in_app_or in Hx. destruct Hx as [Hx|Hx]; apply in_map_iff in Hx.
    - destruct Hx as [tab [<- _]]. left. exists tab. reflexivity.
    - destruct Hx as [ti [<- Hti]]. apply filter_In in Hti.
      destruct Hti as [Hin Hti]. apply andb_prop in Hti.
      right. exists ti. tauto. }
  split; [|split].
  - apply Forall_forall. intros x Hx.
    destruct (Hcases x Hx) as [[tab ->]|[ti [_ [Hs ->]]]].
    + right. apply reconciledOpenItem_open.
    + left. exact Hs.
  - apply Forall_forall. intros x Hx.
    destruct (Hcases x Hx) as [[tab ->]|[ti [_ [Hs ->]]]].
    + intros _. rewrite (proj2 (reconciledOpenItem_open tabItems tab)).
      discriminate.
    + intros Hopen. discriminate.
  - intros Hok. rewrite Forall_forall in Hok.
    apply Forall_forall. intros x Hx.
    destruct (Hcases x Hx) as [[tab ->]|[ti [Hin [Hs ->]]]].
    + unfold reconciledOpenItem.
      destruct (firstSavedAt _ tabItems) as [s|] eqn:Hfirst.
      * unfold firstSavedAt in Hfirst. apply find_some in Hfirst.
        destruct Hfirst as [Hin Hp]. apply andb_prop in Hp.
        intros _. simpl. apply (Hok s Hin), Hp.
      * intros Hsaved. discriminate.
    + intros _. simpl. apply (Hok ti Hin Hs).
Qed.

Lemma mergeOpenTabs_well_formed_witness :
  (forall m, Permutation (Sample.insertionOrder m) m) /\
  exists r,
    mergeOpenTabs Sample.insertionOrder [Sample.savedA] [Sample.tabB]
    = Some r /\
    Forall hasFacet r /\ Forall openStateOk r.
Proof.
  assert (Hperm : forall m, Permutation (Sample.insertionOrder m) m)
    by (intros m; apply Permutation_refl).
  split; [exact Hperm|].
  eexists. split; [reflexivity|].
  destruct (@mergeOpenTabs_well_formed Sample.insertionOrder Hperm
              [Sample.savedA] [Sample.tabB] _ eq_refl) as [H1 [H2 _]].
  split; assumption.
Defined.

(** ** The mutators: lookups that miss, replacements, round trips *)

Lemma isSavedTabWithId_true (bookmarkId : string) (ti : TabItem.t) :
  isSavedTabWithId bookmarkId ti = Some true <-> matchesBookmarkId bookmarkId ti.
Proof.
  unfold isSavedTabWithId, matchesBookmarkId.
  destruct (TabItem.saved ti).
  - destruct (TabItem.savedState ti) as [ss|]; simpl.
    + destruct (String.eqb_spec (SavedTabState.bookmarkId ss) bookmarkId)
        as [Heq|Hne].
      * split; [intros _|reflexivity].
        split; [reflexivity | exists ss; auto].
      * split; [discriminate|].
        intros [_ [ss' [Hss Hid]]]. injection Hss as <-. contradiction.
    + split; [discriminate|]. intros [_ [ss' [Hss _]]]. discriminate.
  - split; [discriminate|]. intros [Hsaved _]. discriminate.
Qed.

Lemma isSavedTabWithId_false (bookmarkId : string) (ti : TabItem.t) :
  savedStateOk ti -> ~ matchesBookmarkId bookmarkId ti ->
  isSavedTabWithId bookmarkId ti = Some false.
Proof.
  intros Hok Hmiss.
  destruct (isSavedTabWithId bookmarkId ti) as [[|]|] eqn:E.
  - exfalso. apply Hmiss, isSavedTabWithId_true, E.
  - reflexivity.
  - exfalso. unfold isSavedTabWithId, savedStateOk in *.
    destruct (TabItem.saved ti); [|discriminate].
    destruct (TabItem.savedState ti); [discriminate|]. apply Hok; reflexivity.
Qed.

Lemma Forall_isOpenTabWithId_false (tabId : Z) (l : list TabItem.t) :
  Forall openStateOk l ->
  Forall (fun ti => ~ matchesOpenTabId tabId ti) l ->
  Forall (fun ti => isOpenTabWithId tabId ti = Some false) l.
Proof.
  rewrite !Forall_forall. intros Hok Hmiss ti Hin.
  apply isOpenTabWithId_false; auto.
Qed.

Lemma Forall_isSavedTabWithId_false (bookmarkId : string) (l : list TabItem.t) :
  Forall savedStateOk l ->
  Forall (fun ti => ~ matchesBookmarkId bookmarkId ti) l ->
  Forall (fun ti => isSavedTabWithId bookmarkId ti = Some false) l.
Proof.
  rewrite !Forall_forall. intros Hok Hmiss ti Hin.
  apply isSavedTabWithId_false; auto.
Qed.

(** The predicate of the lookup in [unsaveTab], for an item that has a
    saved state. *)
Lemma unsaveTab_lookup (tabWindow : TabWindow.t) (tabItem : TabItem.t)
    (savedState : SavedTabState.t) :
  TabItem.savedState tabItem = Some savedState ->
  unsaveTab tabWindow tabItem
  = (entry <-
       Immutable.findEntry
         (isSavedTabWithId (SavedTabState.bookmarkId savedState))
         (TabWindow.tabItems tabWindow) ;;
     entry' <- entry ;;
     Some (TabWindow.set_tabItems
             (if TabItem.open tabItem then
                Immutable.splice (fst entry') 1 [resetOpenItem tabItem]
                  (TabWindow.tabItems tabWindow)
              else
                Immutable.splice (fst entry') 1 []
                  (TabWindow.tabItems tabWindow))
             tabWindow)).
Proof. intros Hstate. unfold unsaveTab. rewrite Hstate. reflexivity. Qed.

(** The predicate of the lookup in [saveTab], for an item that has an open
    state. *)
Lemma saveTab_lookup (tabWindow : TabWindow.t) (tabItem : TabItem.t)
    (tabNode : BookmarkTreeNode.t) (openState : OpenTabState.t) :
  TabItem.openState tabItem = Some openState ->
  saveTab tabWindow tabItem tabNode
  = (entry <-
       Immutable.findEntry
         (isOpenTabWithId (OpenTabState.openTabId openState))
         (TabWindow.tabItems tabWindow) ;;
     entry' <- entry ;;
     Some (TabWindow.set_tabItems
             (Immutable.splice (fst entry') 1
                [TabItem.set_savedState
                   (Some (SavedTabState.new (BookmarkTreeNode.prop tabNode)))
                   (TabItem.set_saved true tabItem)]
                (TabWindow.tabItems tabWindow))
             tabWindow)).
Proof. intros Hstate. unfold saveTab. rewrite Hstate. reflexivity. Qed.

(** X6.  [saveTab] has no guard for a lookup that misses: when no open
    item of the window has the tab id of the item to save, it throws, where
    [closeTab] and [setActiveTab] return the window. *)
Theorem saveTab_miss_throws (tabWindow : TabWindow.t) (tabItem : TabItem.t)
    (tabNode : BookmarkTreeNode.t) (openState : OpenTabState.t) :
  TabItem.openState tabItem = Some openState ->
  Forall openStateOk (TabWindow.tabItems tabWindow) ->
  Forall (fun ti => ~ matchesOpenTabId (OpenTabState.openTabId openState) ti)
         (TabWindow.tabItems tabWindow) ->
  saveTab tabWindow tabItem tabNode = None.
Proof.
  intros Hstate Hok Hmiss. rewrite (@saveTab_lookup tabWindow tabItem tabNode openState Hstate).
  unfold Immutable.findEntry.
  rewrite findEntryFrom_missing; [reflexivity|].
  apply Forall_isOpenTabWithId_false; assumption.
Qed.

Lemma saveTab_miss_throws_witness :
  saveTab Sample.savedWindow
    (makeOpenTabItem
       {| Tab.id := 99; Tab.url := Some "https://c.com"; Tab.title := None;
          Tab.favIconUrl := None; Tab.active := false; Tab.index := 2;
          Tab.audible := false |})
    Sample.bookmarkB = None.
Proof.
  eapply saveTab_miss_throws.
  - reflexivity.
  - repeat constructor; intros _; discriminate.
  - repeat constructor; intros [_ [openState [Hstate Hid]]];
      injection Hstate as <-; discriminate.
Defined.

Lemma unsaveTab_at (tabWindow : TabWindow.t) (tabItem : TabItem.t)
    (savedState : SavedTabState.t) (pre post : list TabItem.t)
    (found : TabItem.t) :
  TabItem.savedState tabItem = Some savedState ->
  TabWindow.tabItems tabWindow = pre ++ found :: post ->
  Forall savedStateOk pre ->
  Forall (fun ti => ~ matchesBookmarkId
                      (SavedTabState.bookmarkId savedState) ti) pre ->
  matchesBookmarkId (SavedTabState.bookmarkId savedState) found ->
  unsaveTab tabWindow tabItem
  = Some (TabWindow.set_tabItems
            (if TabItem.open tabItem then
               pre ++ {| TabItem.url := TabItem.url tabItem;
                         TabItem.saved := false;
                         TabItem.savedState := None;
                         TabItem.open := true;
                         TabItem.openState := TabItem.openState tabItem |}
                   :: post
             else pre ++ post)
            tabWindow).
Proof.
  intros Hstate Hitems Hok Hmiss Hmatch.
  rewrite (@unsaveTab_lookup tabWindow tabItem savedState Hstate), Hitems.
  rewrite findEntry_found;
    [|apply Forall_isSavedTabWithId_false; assumption
     |apply isSavedTabWithId_true, Hmatch].
  simpl. rewrite !splice_at.
  destruct (TabItem.open tabItem) eqn:Hopen; [|reflexivity].
  unfold resetOpenItem, TabItem.set_savedState, TabItem.set_saved. simpl.
  rewrite Hopen. reflexivity.
Qed.

(** X7.  [unsaveTab] looks the item up by the bookmark id of the item it
    is given and works on that given item, not on the one it finds: when
    the given item is open, its open-only form replaces the first saved
    item with that bookmark id; when it is not open, that item is taken
    out of the sequence. *)
Theorem unsaveTab_found (tabWindow : TabWindow.t) (tabItem : TabItem.t)
    (savedState : SavedTabState.t) (pre post : list TabItem.t)
    (found : TabItem.t) :
  TabItem.savedState tabItem = Some savedState ->
  TabWindow.tabItems tabWindow = pre ++ found :: post ->
  Forall savedStateOk pre ->
  Forall (fun ti => ~ matchesBookmarkId
                      (SavedTabState.bookmarkId savedState) ti) pre ->
  matchesBookmarkId (SavedTabState.bookmarkId savedState) found ->
  (TabItem.open tabItem = true ->
   unsaveTab tabWindow tabItem
   = Some (TabWindow.set_tabItems
             (pre ++ {| TabItem.url := TabItem.url tabItem;
                        TabItem.saved := false;
                        TabItem.savedState := None;
                        TabItem.open := true;
                        TabItem.openState := TabItem.openState tabItem |}
                  :: post)
             tabWindow)) /\
  (TabItem.open tabItem = false ->
   unsaveTab tabWindow tabItem
   = Some (TabWindow.set_tabItems (pre ++ post) tabWindow)).
Proof.
  intros Hstate Hitems Hok Hmiss Hmatch.
  rewrite (@unsaveTab_at tabWindow tabItem savedState pre post found
             Hstate Hitems Hok Hmiss Hmatch).
  split; intros ->; reflexivity.
Qed.

Lemma unsaveTab_found_witness :
  unsaveTab Sample.savedWindow Sample.openSavedA
  = Some (TabWindow.set_tabItems
            [makeOpenTabItem Sample.tabA; makeOpenTabItem Sample.tabB]
            Sample.savedWindow)
  /\
  unsaveTab
    (TabWindow.set_tabItems [makeOpenTabItem Sample.tabB; Sample.savedA]
       Sample.savedWindow)
    Sample.savedA
  = Some (TabWindow.set_tabItems [makeOpenTabItem Sample.tabB]
            Sample.savedWindow).
Proof.
  split.
  - apply (@unsaveTab_found Sample.savedWindow Sample.openSavedA
             (makeSavedTabState Sample.bookmarkA) []
             [makeOpenTabItem Sample.tabB] Sample.openSavedA).
    + reflexivity.
    + reflexivity.
    + constructor.
    + constructor.
    + split; [reflexivity|]. eexists. split; reflexivity.
    + reflexivity.
  - apply (@unsaveTab_found
             (TabWindow.set_tabItems
                [makeOpenTabItem Sample.tabB; Sample.savedA]
                Sample.savedWindow)
             Sample.savedA
             (makeSavedTabState Sample.bookmarkA)
             [makeOpenTabItem Sample.tabB] [] Sample.savedA).
    + reflexivity.
    + reflexivity.
    + repeat constructor. intros Hsaved. discriminate.
    + repeat constructor. intros [Hsaved _]. discriminate.
    + split; [reflexivity|]. eexists. split; reflexivity.
    + reflexivity.
Defined.

(** X8.  [unsaveTab] has no guard either: when no saved item of the
    window has the bookmark id of the given item, it throws. *)
Theorem unsaveTab_miss_throws (tabWindow : TabWindow.t) (tabItem : TabItem.t)
    (savedState : SavedTabState.t) :
  TabItem.savedState tabItem = Some savedState ->
  Forall savedStateOk (TabWindow.tabItems tabWindow) ->
  Forall (fun ti => ~ matchesBookmarkId
                      (SavedTabState.bookmarkId savedState) ti)
         (TabWindow.tabItems tabWindow) ->
  unsaveTab tabWindow tabItem = None.
Proof.
  intros Hstate Hok Hmiss. rewrite (@unsaveTab_lookup tabWindow tabItem savedState Hstate).
  unfold Immutable.findEntry.
  rewrite findEntryFrom_missing; [reflexivity|].
  apply Forall_isSavedTabWithId_false; assumption.
Qed.

Lemma unsaveTab_miss_throws_witness :
  unsaveTab Sample.window Sample.savedA = None.
Proof.
  eapply unsaveTab_miss_throws.
  - reflexivity.
  - repeat constructor; intros Hsaved; discriminate.
  - repeat constructor; intros [Hsaved _]; discriminate.
Defined.

Lemma nth_error_middle {A : Type} (pre post : list A) (x : A) :
  nth_error (pre ++ x :: post) (List.length pre) = Some x.
Proof.
  rewrite nth_error_app2 by lia. rewrite Nat.sub_diag. reflexivity.
Qed.

(** X9.  Saving an open, unsaved item and unsaving the saved item that
    results gives the window back.  The saved state [saveTab] attaches has
    the bookmark id "", so [unsaveTab] finds the item again only when no
    saved item before it in the sequence has that bookmark id. *)
Theorem saveTab_unsaveTab_roundtrip (tabWindow : TabWindow.t)
    (tabNode : BookmarkTreeNode.t) (pre post : list TabItem.t)
    (tabItem : TabItem.t) (openState : OpenTabState.t) :
  TabWindow.tabItems tabWindow = pre ++ tabItem :: post ->
  TabItem.saved tabItem = false ->
  TabItem.savedState tabItem = None ->
  TabItem.open tabItem = true ->
  TabItem.openState tabItem = Some openState ->
  Forall openStateOk pre ->
  Forall (fun ti => ~ matchesOpenTabId (OpenTabState.openTabId openState) ti)
         pre ->
  Forall savedStateOk pre ->
  Forall (fun ti => ~ matchesBookmarkId "" ti) pre ->
  exists savedWindow savedItem,
    saveTab tabWindow tabItem tabNode = Some savedWindow /\
    nth_error (TabWindow.tabItems savedWindow) (List.length pre)
    = Some savedItem /\
    TabItem.saved savedItem = true /\
    unsaveTab savedWindow savedItem = Some tabWindow.
Proof.
  intros Hitems Hsaved HsavedState Hopen Hstate Hok Hmiss Hok' Hmiss'.
  assert (Hmatch : matchesOpenTabId (OpenTabState.openTabId openState) tabItem).
  { split; [exact Hopen | exists openState; auto]. }
  rewrite (@saveTab_found tabWindow tabItem tabNode openState pre post tabItem
             Hstate Hitems Hok Hmiss Hmatch).
  eexists. eexists. split; [reflexivity|].
  split; [apply nth_error_middle|]. split; [reflexivity|].
  erewrite unsaveTab_at;
    [ | reflexivity | reflexivity | exact Hok' | exact Hmiss'
      | split; [reflexivity | eexists; split; reflexivity] ].
  simpl. rewrite Hopen.
  destruct tabWindow, tabItem. simpl in *. subst. reflexivity.
Qed.

Lemma saveTab_unsaveTab_roundtrip_witness :
  exists savedWindow savedItem,
    saveTab Sample.window (makeOpenTabItem Sample.tabB) Sample.bookmarkB
    = Some savedWindow /\
    nth_error (TabWindow.tabItems savedWindow) 1 = Some savedItem /\
    TabItem.saved savedItem = true /\
    unsaveTab savedWindow savedItem = Some Sample.window.
Proof.
  apply (@saveTab_unsaveTab_roundtrip Sample.window Sample.bookmarkB
           [makeOpenTabItem Sample.tabA] [] (makeOpenTabItem Sample.tabB)
           (makeOpenTabState Sample.tabB)); try reflexivity.
  - repeat constructor. intros _. discriminate.
  - repeat constructor. intros [_ [openState [Hstate Hid]]].
    injection Hstate as <-. discriminate.
  - repeat constructor. intros Hsaved. discriminate.
  - repeat constructor. intros [Hsaved _]. discriminate.
Defined.

Lemma Forall_firstn_skipn {A : Type} (P : A -> Prop) (n : nat) (l : list A) :
  Forall P l -> Forall P (firstn n l) /\ Forall P (skipn n l).
Proof.
  intros Hl. rewrite <- (firstn_skipn n l) in Hl.
  apply Forall_app in Hl. exact Hl.
Qed.

Lemma isOpenTabWithId_open_item (tab : Tab.t) :
  isOpenTabWithId (Tab.id tab) (makeOpenTabItem tab) = Some true.
Proof. unfold isOpenTabWithId. simpl. rewrite Z.eqb_refl. reflexivity. Qed.

(** [updateTabItem] on a window that has the open item of the tab, behind
    items that do not match the id of the tab. *)
Lemma updateTabItem_at (tabWindow : TabWindow.t) (tab : Tab.t)
    (pre post : list TabItem.t) (found : TabItem.t) :
  TabWindow.tabItems tabWindow = pre ++ found :: post ->
  Forall (fun ti => isOpenTabWithId (Tab.id tab) ti = Some false) pre ->
  isOpenTabWithId (Tab.id tab) found = Some true ->
  updateTabItem tabWindow tab
  = Some (TabWindow.set_tabItems (pre ++ makeOpenTabItem tab :: post)
            tabWindow).
Proof.
  intros Hitems Hpre Hfound. unfold updateTabItem.
  rewrite Hitems, findEntry_found by assumption.
  simpl. rewrite splice_at. reflexivity.
Qed.

(** [updateTabItem] on a window with no open item of the id of the tab. *)
Lemma updateTabItem_new (tabWindow : TabWindow.t) (tab : Tab.t) :
  Forall (fun ti => isOpenTabWithId (Tab.id tab) ti = Some false)
         (TabWindow.tabItems tabWindow) ->
  updateTabItem tabWindow tab
  = Some (TabWindow.set_tabItems
            (firstn (Immutable.resolveBegin (Tab.index tab)
                       (List.length (TabWindow.tabItems tabWindow)))
                    (TabWindow.tabItems tabWindow)
             ++ makeOpenTabItem tab
             :: skipn (Immutable.resolveBegin (Tab.index tab)
                         (List.length (TabWindow.tabItems tabWindow)))
                      (TabWindow.tabItems tabWindow))
            tabWindow).
Proof.
  intros Hmiss. unfold updateTabItem, Immutable.findEntry.
  rewrite findEntryFrom_missing by exact Hmiss. simpl.
  unfold Immutable.spliceAt, Immutable.splice.
  rewrite Nat.add_0_r. reflexivity.
Qed.

(** X10.  [updateTabItem] replaces the first open item with the id of the
    tab, in place, by the open-only item of the tab: the saved flag and the
    saved state that item had are dropped. *)
Theorem updateTabItem_found (tabWindow : TabWindow.t) (tab : Tab.t)
    (pre post : list TabItem.t) (found : TabItem.t) :
  TabWindow.tabItems tabWindow = pre ++ found :: post ->
  Forall openStateOk pre ->
  Forall (fun ti => ~ matchesOpenTabId (Tab.id tab) ti) pre ->
  matchesOpenTabId (Tab.id tab) found ->
  updateTabItem tabWindow tab
  = Some (TabWindow.set_tabItems
            (pre ++ {| TabItem.url := lodash_get (Tab.url tab) "";
                       TabItem.saved := false;
                       TabItem.savedState := None;
                       TabItem.open := true;
                       TabItem.openState := Some (makeOpenTabState tab) |}
                 :: post)
            tabWindow).
Proof.
  intros Hitems Hok Hmiss Hmatch.
  apply (@updateTabItem_at tabWindow tab pre post found Hitems).
  - apply Forall_isOpenTabWithId_false; assumption.
  - apply isOpenTabWithId_true, Hmatch.
Qed.

Lemma updateTabItem_found_witness :
  updateTabItem Sample.savedWindow Sample.tabA
  = Some (TabWindow.set_tabItems
            [makeOpenTabItem Sample.tabA; makeOpenTabItem Sample.tabB]
            Sample.savedWindow).
Proof.
  apply (@updateTabItem_found Sample.savedWindow Sample.tabA []
           [makeOpenTabItem Sample.tabB] Sample.openSavedA).
  - reflexivity.
  - constructor.
  - constructor.
  - split; [reflexivity|]. eexists. split; reflexivity.
Defined.

(** X11.  A tab that is new to the window is put in by [updateTabItem] at
    the position its index resolves to, and [closeTab] with its id takes
    it out again: the two calls give the window back, whatever the index
    of the tab. *)
Theorem updateTabItem_closeTab_roundtrip (tabWindow : TabWindow.t) (tab : Tab.t) :
  Forall openStateOk (TabWindow.tabItems tabWindow) ->
  Forall (fun ti => ~ matchesOpenTabId (Tab.id tab) ti)
         (TabWindow.tabItems tabWindow) ->
  exists updWindow,
    updateTabItem tabWindow tab = Some updWindow /\
    List.length (TabWindow.tabItems updWindow)
    = S (List.length (TabWindow.tabItems tabWindow)) /\
    closeTab updWindow (Tab.id tab) = Some tabWindow.
Proof.
  intros Hok Hmiss.
  pose proof (Forall_isOpenTabWithId_false Hok Hmiss) as Hfalse.
  rewrite (@updateTabItem_new tabWindow tab Hfalse).
  set (p := Immutable.resolveBegin (Tab.index tab)
              (List.length (TabWindow.tabItems tabWindow))).
  eexists. split; [reflexivity|]. simpl. split.
  - rewrite length_app. simpl.
    rewrite <- (firstn_skipn p (TabWindow.tabItems tabWindow)) at 3.
    rewrite length_app. lia.
  - unfold closeTab. simpl.
    rewrite findEntry_found;
      [| apply (Forall_firstn_skipn p Hfalse)
       | apply isOpenTabWithId_open_item ].
    simpl. rewrite splice_at. simpl. rewrite firstn_skipn.
    destruct tabWindow. reflexivity.
Qed.

Lemma updateTabItem_closeTab_roundtrip_witness :
  exists updWindow,
    updateTabItem Sample.savedWindow
      {| Tab.id := 99; Tab.url := Some "https://c.com"; Tab.title := None;
         Tab.favIconUrl := None; Tab.active := false; Tab.index := (-1);
         Tab.audible := false |} = Some updWindow /\
    List.length (TabWindow.tabItems updWindow) = 3%nat /\
    closeTab updWindow 99 = Some Sample.savedWindow.
Proof.
  apply (@updateTabItem_closeTab_roundtrip Sample.savedWindow
           {| Tab.id := 99; Tab.url := Some "https://c.com"; Tab.title := None;
              Tab.favIconUrl := None; Tab.active := false; Tab.index := (-1);
              Tab.audible := false |}).
  - repeat constructor; intros _; discriminate.
  - repeat constructor; intros [_ [openState [Hstate Hid]]];
      injection Hstate as <-; discriminate.
Defined.

(** X12.  [updateTabItem] is idempotent: a second call with the same tab
    finds the item the first call put in and returns the same window. *)
Theorem updateTabItem_idempotent (tabWindow : TabWindow.t) (tab : Tab.t) :
  Forall openStateOk (TabWindow.tabItems tabWindow) ->
  exists updWindow,
    updateTabItem tabWindow tab = Some updWindow /\
    updateTabItem updWindow tab = Some updWindow.
Proof.
  intros Hok.
  assert (Hagain : forall pre post,
             Forall (fun ti => isOpenTabWithId (Tab.id tab) ti = Some false)
                    pre ->
             updateTabItem
               (TabWindow.set_tabItems (pre ++ makeOpenTabItem tab :: post)
                  tabWindow) tab
             = Some (TabWindow.set_tabItems
                       (pre ++ makeOpenTabItem tab :: post) tabWindow)).
  { intros pre post Hpre.
    rewrite (@updateTabItem_at _ tab pre post (makeOpenTabItem tab));
      [reflexivity | reflexivity | exact Hpre
       | apply isOpenTabWithId_open_item]. }
  destruct (findEntry_total (isOpenTabWithId (Tab.id tab))
              (l := TabWindow.tabItems tabWindow)) as [entry Hentry].
  { eapply Forall_impl; [|exact Hok]. intros ti. apply isOpenTabWithId_defined. }
  destruct entry as [[index found]|].
  - apply findEntry_inv in Hentry.
    destruct Hentry as [pre [post [Hitems [_ [Hpre Hfound]]]]].
    rewrite (@updateTabItem_at tabWindow tab pre post found Hitems Hpre Hfound).
    eexists. split; [reflexivity|]. apply Hagain, Hpre.
  - apply findEntryFrom_missing_inv in Hentry.
    rewrite (@updateTabItem_new tabWindow tab Hentry).
    eexists. split; [reflexivity|].
    apply Hagain. apply (Forall_firstn_skipn _ Hentry).
Qed.

Lemma updateTabItem_idempotent_witness :
  Forall openStateOk (TabWindow.tabItems Sample.savedWindow) /\
  exists updWindow,
    updateTabItem Sample.savedWindow Sample.tabB = Some updWindow /\
    updateTabItem updWindow Sample.tabB = Some updWindow.
Proof.
  assert (Hok : Forall openStateOk (TabWindow.tabItems Sample.savedWindow))
    by (repeat constructor; intros _; discriminate).
  split; [exact Hok|].
  apply (@updateTabItem_idempotent Sample.savedWindow Sample.tabB Hok).
Defined.

(** X13.  [closeTab] never raises the number of active open items, so it
    keeps the single-active invariant; it either returns the window as it
    is or lowers the number of open items by exactly one; and it keeps the
    number of saved items: closing a tab never loses a bookmark. *)
Theorem closeTab_counts (tabWindow tabWindow' : TabWindow.t) (tabId : Z) :
  closeTab tabWindow tabId = Some tabWindow' ->
  (activeCount (TabWindow.tabItems tabWindow')
   <= activeCount (TabWindow.tabItems tabWindow))%nat /\
  (tabWindow' = tabWindow \/
   S (openTabCount tabWindow') = openTabCount tabWindow) /\
  List.length (filter TabItem.saved (TabWindow.tabItems tabWindow'))
  = List.length (filter TabItem.saved (TabWindow.tabItems tabWindow)).
Proof.
  unfold closeTab. intros H.
  apply bind_Some in H. destruct H as [entry [Hentry H]].
  destruct entry as [[index tabItem]|].
  - apply findEntry_inv in Hentry.
    destruct Hentry as [pre [post [Hitems [-> [_ Hfound]]]]].
    apply isOpenTabWithId_true in Hfound. destruct Hfound as [Hopen _].
    injection H as <-. unfold openTabCount, activeCount. simpl.
    rewrite Hitems, !splice_at.
    destruct (TabItem.saved tabItem) eqn:Hsaved;
      rewrite !filter_app, !length_app; simpl;
      rewrite Hopen, Hsaved; destruct (isActiveOpen tabItem); simpl;
      repeat split; try lia; right; lia.
  - injection H as <-. repeat split; auto.
Qed.

Lemma closeTab_counts_witness :
  closeTab Sample.savedWindow 7
  = Some (TabWindow.set_tabItems
            [Sample.savedA; makeOpenTabItem Sample.tabB] Sample.savedWindow) /\
  (activeCount [Sample.savedA; makeOpenTabItem Sample.tabB]
   <= activeCount (TabWindow.tabItems Sample.savedWindow))%nat /\
  List.length (filter TabItem.saved [Sample.savedA; makeOpenTabItem Sample.tabB])
  = List.length (filter TabItem.saved (TabWindow.tabItems Sample.savedWindow)).
Proof.
  assert (H : closeTab Sample.savedWindow 7
              = Some (TabWindow.set_tabItems
                        [Sample.savedA; makeOpenTabItem Sample.tabB]
                        Sample.savedWindow)) by reflexivity.
  split; [exact H|].
  destruct (@closeTab_counts Sample.savedWindow _ 7 H) as [Hactive [_ Hsaved]].
  split; [exact Hactive | exact Hsaved].
Defined.

Lemma isActiveOpenTab_false (ti : TabItem.t) :
  openStateOk ti -> isActiveOpen ti = false ->
  isActiveOpenTab ti = Some false.
Proof.
  unfold openStateOk, isActiveOpen, isActiveOpenTab. intros Hok Hfalse.
  destruct (TabItem.open ti); [|reflexivity].
  destruct (TabItem.openState ti) as [os|].
  - simpl in *. rewrite Hfalse. reflexivity.
  - exfalso. apply Hok; reflexivity.
Qed.

Lemma activeCount_zero (l : list TabItem.t) :
  Forall openStateOk l -> activeCount l = 0%nat ->
  Forall (fun y => isActiveOpenTab y = Some false) l.
Proof.
  induction 1 as [|y l Hy _ IH]; intros Hzero.
  - constructor.
  - change (y :: l) with ([y] ++ l) in Hzero.
    rewrite activeCount_app, activeCount_one in Hzero.
    destruct (isActiveOpen y) eqn:Hactive; [simpl in Hzero; lia|].
    constructor; [apply isActiveOpenTab_false; assumption | apply IH, Hzero].
Qed.

(** The items [setActiveTab] works on once the active flag of the
    previous active tab is cleared: as many, none of them active. *)
Lemma setActiveTab_cleared (items : list TabItem.t) :
  Forall openStateOk items ->
  (activeCount items <= 1)%nat ->
  exists prevPos nonActiveItems,
    Immutable.findEntry isActiveOpenTab items = Some prevPos /\
    match prevPos with
    | Some (prevIndex, prevActiveTab) =>
        prevOpenState <- TabItem.openState prevActiveTab ;;
        Some (Immutable.splice prevIndex 1
                [TabItem.set_openState
                   (Some (OpenTabState.remove_active prevOpenState))
                   prevActiveTab]
                items)
    | None => Some items
    end = Some nonActiveItems /\
    List.length nonActiveItems = List.length items /\
    Forall (fun y => isActiveOpenTab y = Some false) nonActiveItems.
Proof.
  intros Hok Hcount.
  destruct (findEntry_total isActiveOpenTab (l := items)) as [prevPos Hprev].
  { eapply Forall_impl; [|exact Hok]. intros ti. apply isActiveOpenTab_defined. }
  exists prevPos. destruct prevPos as [[prevIndex prevActiveTab]|].
  - pose proof Hprev as Hinv. apply findEntry_inv in Hinv.
    destruct Hinv as [pre [post [Hitems [-> [Hpre Hactive]]]]].
    pose proof (isActiveOpenTab_true _ Hactive) as Hactive'.
    unfold isActiveOpenTab in Hactive.
    destruct (TabItem.open prevActiveTab) eqn:Hopen; [|discriminate].
    destruct (TabItem.openState prevActiveTab) as [prevOpenState|];
      [|discriminate].
    eexists. split; [exact Hprev|]. split; [reflexivity|].
    rewrite Hitems, splice_at. split.
    + rewrite !length_app. reflexivity.
    + rewrite Hitems in Hok, Hcount.
      change (pre ++ prevActiveTab :: post)
        with (pre ++ [prevActiveTab] ++ post) in Hcount.
      rewrite !activeCount_app, activeCount_one, Hactive' in Hcount.
      apply Forall_app in Hok. destruct Hok as [_ Hok].
      inversion Hok as [|? ? _ Hpost]; subst.
      apply Forall_app. split; [exact Hpre|].
      constructor.
      * unfold isActiveOpenTab. simpl. rewrite Hopen. reflexivity.
      * apply activeCount_zero; [exact Hpost | lia].
  - exists items. split; [exact Hprev|]. split; [reflexivity|].
    split; [reflexivity|]. eapply findEntryFrom_missing_inv, Hprev.
Qed.

(** X14.  When the window has at most one active open item and an open
    item with the given tab id, [setActiveTab] returns a window of the same
    length in which the first item with that id, at its position, is the
    only active open item; the title of an unsaved window is then the title
    of that tab. *)
Theorem setActiveTab_activates (tabWindow : TabWindow.t) (tabId : Z)
    (pre post : list TabItem.t) (tabItem : TabItem.t)
    (openState : OpenTabState.t) :
  TabWindow.tabItems tabWindow = pre ++ tabItem :: post ->
  Forall openStateOk (TabWindow.tabItems tabWindow) ->
  Forall (fun ti => ~ matchesOpenTabId tabId ti) pre ->
  TabItem.open tabItem = true ->
  TabItem.openState tabItem = Some openState ->
  OpenTabState.openTabId openState = tabId ->
  (activeCount (TabWindow.tabItems tabWindow) <= 1)%nat ->
  exists tabWindow',
    setActiveTab tabWindow tabId = Some tabWindow' /\
    List.length (TabWindow.tabItems tabWindow')
    = List.length (TabWindow.tabItems tabWindow) /\
    nth_error (TabWindow.tabItems tabWindow') (List.length pre)
    = Some (TabItem.set_openState
              (Some (OpenTabState.set_active true openState)) tabItem) /\
    activeCount (TabWindow.tabItems tabWindow') = 1%nat /\
    (TabWindow.saved tabWindow = false ->
     computeTitle tabWindow' = Some (OpenTabState.title openState)).
Proof.
  intros Hitems Hok Hmiss Hopen Hstate Hid Hcount.
  assert (Hentry : Immutable.findEntry (isOpenTabWithId tabId)
                     (TabWindow.tabItems tabWindow)
                   = Some (Some (List.length pre, tabItem))).
  { rewrite Hitems. apply findEntry_found.
    - apply Forall_isOpenTabWithId_false; [|exact Hmiss].
      rewrite Hitems in Hok. apply Forall_app in Hok. tauto.
    - apply isOpenTabWithId_true. split; [exact Hopen|].
      exists openState. auto. }
  destruct (setActiveTab_cleared Hok Hcount)
    as [prevPos [nonActiveItems [Hprev [Hnon [Hlen Hfalse]]]]].
  unfold setActiveTab. rewrite Hentry. simpl. unfold TabItem.active.
  rewrite Hprev. simpl. rewrite Hnon. simpl. rewrite Hstate. simpl.
  set (updActiveTab := TabItem.set_openState
                         (Some (OpenTabState.set_active true openState))
                         tabItem).
  assert (Hn : (List.length pre < List.length nonActiveItems)%nat).
  { rewrite Hlen, Hitems, length_app. simpl. lia. }
  destruct (Forall_firstn_skipn (List.length pre) Hfalse) as [Hfirst _].
  destruct (Forall_firstn_skipn (List.length pre + 1) Hfalse) as [_ Hskip].
  assert (Hlen_first :
            List.length (firstn (List.length pre) nonActiveItems)
            = List.length pre).
  { apply firstn_length_le. lia. }
  eexists. split; [reflexivity|]. simpl. unfold Immutable.splice.
  split; [|split; [|split]].
  - rewrite !length_app, Hlen_first, length_skipn. simpl. lia.
  - pose proof (nth_error_middle
                  (firstn (List.length pre) nonActiveItems)
                  (skipn (List.length pre + 1) nonActiveItems)
                  updActiveTab) as Hnth.
    rewrite Hlen_first in Hnth. exact Hnth.
  - rewrite !activeCount_app, activeCount_one.
    rewrite (activeCount_none Hfirst), (activeCount_none Hskip).
    unfold updActiveTab, isActiveOpen. simpl. rewrite Hopen. reflexivity.
  - intros Hsaved. unfold computeTitle. simpl. rewrite Hsaved.
    unfold Immutable.find.
    rewrite findEntry_found; [|exact Hfirst|].
    + simpl. unfold TabItem.title, updActiveTab. simpl. rewrite Hopen.
      reflexivity.
    + unfold isActiveOpenTab, updActiveTab. simpl. rewrite Hopen.
      reflexivity.
Qed.

Lemma setActiveTab_activates_witness :
  exists tabWindow',
    setActiveTab Sample.window 8 = Some tabWindow' /\
    List.length (TabWindow.tabItems tabWindow') = 2%nat /\
    nth_error (TabWindow.tabItems tabWindow') 1
    = Some (TabItem.set_openState
              (Some (OpenTabState.set_active true
                       (makeOpenTabState Sample.tabB)))
              (makeOpenTabItem Sample.tabB)) /\
    activeCount (TabWindow.tabItems tabWindow') = 1%nat /\
    (TabWindow.saved Sample.window = false ->
     computeTitle tabWindow' = Some "B").
Proof.
  apply (@setActiveTab_activates Sample.window 8
           [makeOpenTabItem Sample.tabA] [] (makeOpenTabItem Sample.tabB)
           (makeOpenTabState Sample.tabB)); try reflexivity.
  - repeat constructor; intros _; discriminate.
  - repeat constructor. intros [_ [openState [Hstate Hid]]].
    injection Hstate as <-. discriminate.
Defined.

(** ** Titles, closed windows, windows from snapshots *)

(** X15.  On a window whose open items carry their open state,
    [computeTitle] does not throw; the title of a saved window is its saved
    title, and the title of an unsaved window without an open item is the
    empty string. *)
Theorem computeTitle_defined (tabWindow : TabWindow.t) :
  Forall openStateOk (TabWindow.tabItems tabWindow) ->
  (exists title, computeTitle tabWindow = Some title) /\
  (TabWindow.saved tabWindow = true ->
   computeTitle tabWindow = Some (TabWindow.savedTitle tabWindow)) /\
  (TabWindow.saved tabWindow = false -> openTabCount tabWindow = 0%nat ->
   computeTitle tabWindow = Some "").
Proof.
  intros Hok.
  assert (Htitle : forall ti, In ti (TabWindow.tabItems tabWindow) ->
                              TabItem.open ti = true ->
                              exists title, TabItem.title ti = Some title).
  { intros ti Hin Hopen. rewrite Forall_forall in Hok.
    specialize (Hok ti Hin Hopen). unfold TabItem.title. rewrite Hopen.
    destruct (TabItem.openState ti); [|contradiction].
    eexists. reflexivity. }
  assert (Hin : forall (pred : TabItem.t -> option bool) i ti,
             Immutable.findEntry pred (TabWindow.tabItems tabWindow)
             = Some (Some (i, ti)) ->
             In ti (TabWindow.tabItems tabWindow) /\ pred ti = Some true).
  { intros pred i ti H. apply findEntry_inv in H.
    destruct H as [pre [post [-> [_ [_ Hp]]]]].
    split; [apply in_elt | exact Hp]. }
  unfold computeTitle, openTabCount. split; [|split].
  - destruct (TabWindow.saved tabWindow); [eexists; reflexivity|].
    unfold Immutable.find.
    destruct (findEntry_total isActiveOpenTab
                (l := TabWindow.tabItems tabWindow)) as [entry Hentry].
    { eapply Forall_impl; [|exact Hok]. intros ti.
      apply isActiveOpenTab_defined. }
    rewrite Hentry. simpl. destruct entry as [[i ti]|]; simpl.
    + destruct (Hin _ _ _ Hentry) as [Hti Hp].
      apply Htitle; [exact Hti|].
      unfold isActiveOpenTab in Hp.
      destruct (TabItem.open ti); [reflexivity | discriminate].
    + destruct (findEntry_total (fun t => Some (TabItem.open t))
                  (l := TabWindow.tabItems tabWindow)) as [entry' Hentry'].
      { apply Forall_forall. intros ti _. discriminate. }
      rewrite Hentry'. simpl. destruct entry' as [[i ti]|]; simpl.
      * destruct (Hin _ _ _ Hentry') as [Hti Hp].
        apply Htitle; [exact Hti|]. injection Hp as ->. reflexivity.
      * eexists. reflexivity.
  - intros ->. reflexivity.
  - intros -> Hnone.
    assert (Hclosed : Forall (fun ti => TabItem.open ti = false)
                        (TabWindow.tabItems tabWindow)).
    { clear Hok Htitle Hin.
      induction (TabWindow.tabItems tabWindow) as [|ti l IH]; simpl in *.
      - constructor.
      - destruct (TabItem.open ti) eqn:Hopen; [discriminate|].
        constructor; [exact Hopen | apply IH, Hnone]. }
    unfold Immutable.find, Immutable.findEntry.
    rewrite findEntryFrom_missing.
    + simpl. rewrite findEntryFrom_missing; [reflexivity|].
      eapply Forall_impl; [|exact Hclosed]. intros ti ->. reflexivity.
    + eapply Forall_impl; [|exact Hclosed]. intros ti Hopen.
      unfold isActiveOpenTab. rewrite Hopen. reflexivity.
Qed.

Lemma computeTitle_defined_witness :
  Forall openStateOk (TabWindow.tabItems Sample.savedWindow) /\
  (exists title, computeTitle Sample.savedWindow = Some title) /\
  (TabWindow.saved Sample.savedWindow = false ->
   openTabCount (removeOpenWindowState Sample.savedWindow) = 0%nat ->
   computeTitle (removeOpenWindowState Sample.savedWindow) = Some "").
Proof.
  assert (Hok : Forall openStateOk (TabWindow.tabItems Sample.savedWindow))
    by (repeat constructor; intros _; discriminate).
  split; [exact Hok|]. split.
  - apply (@computeTitle_defined Sample.savedWindow Hok).
  - apply (@computeTitle_defined (removeOpenWindowState Sample.savedWindow)).
    repeat constructor. intros Hopen. discriminate.
Defined.

Lemma filter_saved_reset (l : list TabItem.t) :
  filter TabItem.saved (map resetSavedItem (filter TabItem.saved l))
  = map resetSavedItem (filter TabItem.saved l).
Proof.
  apply filter_all. intros x Hx. apply in_map_iff in Hx.
  destruct Hx as [ti [<- Hti]]. apply filter_In in Hti.
  destruct Hti as [_ Hti]. exact Hti.
Qed.

(** X16.  [removeOpenWindowState] is idempotent, and the window it
    returns has no open item, no active item, and only items that are
    saved. *)
Theorem removeOpenWindowState_idempotent (tabWindow : TabWindow.t) :
  removeOpenWindowState (removeOpenWindowState tabWindow)
  = removeOpenWindowState tabWindow /\
  openTabCount (removeOpenWindowState tabWindow) = 0%nat /\
  activeCount (TabWindow.tabItems (removeOpenWindowState tabWindow)) = 0%nat /\
  Forall (fun ti => TabItem.saved ti = true /\ TabItem.open ti = false /\
                    TabItem.openState ti = None)
         (TabWindow.tabItems (removeOpenWindowState tabWindow)).
Proof.
  assert (Hitems : Forall (fun ti => TabItem.saved ti = true /\
                                     TabItem.open ti = false /\
                                     TabItem.openState ti = None)
                     (TabWindow.tabItems (removeOpenWindowState tabWindow))).
  { simpl. apply Forall_forall. intros x Hx. apply in_map_iff in Hx.
    destruct Hx as [ti [<- Hti]]. apply filter_In in Hti.
    destruct Hti as [_ Hti]. simpl. auto. }
  split; [|split; [|split]].
  - unfold removeOpenWindowState. simpl.
    rewrite filter_saved_reset, map_map. reflexivity.
  - unfold openTabCount. rewrite filter_none; [reflexivity|].
    rewrite Forall_forall in Hitems. intros x Hx. apply (Hitems x Hx).
  - unfold activeCount. rewrite filter_none; [reflexivity|].
    rewrite Forall_forall in Hitems. intros x Hx.
    unfold isActiveOpen. destruct (Hitems x Hx) as [_ [-> _]]. reflexivity.
  - exact Hitems.
Qed.

(** X17.  [makeFolderTabWindow] throws on a folder without a list of
    children.  Otherwise it returns a saved, closed window with one closed
    saved item for each child that has a URL, in the order of the children;
    its title is the title of the folder or, when the folder has none, the
    title of its first bookmark, or the empty string; and
    [removeOpenWindowState] leaves it as it is. *)
Theorem makeFolderTabWindow_closed_saved (bookmarkFolder : BookmarkFolder.t) :
  (BookmarkFolder.children bookmarkFolder = None ->
   makeFolderTabWindow bookmarkFolder = None) /\
  (forall children,
      BookmarkFolder.children bookmarkFolder = Some children ->
      exists tabWindow,
        makeFolderTabWindow bookmarkFolder = Some tabWindow /\
        TabWindow.saved tabWindow = true /\
        TabWindow.open tabWindow = false /\
        map TabItem.savedState (TabWindow.tabItems tabWindow)
        = flat_map (fun bm => match BookmarkTreeNode.url bm with
                              | Some _ => [Some (makeSavedTabState bm)]
                              | None => []
                              end) children /\
        Forall (fun ti => TabItem.saved ti = true /\
                          TabItem.open ti = false /\
                          TabItem.openState ti = None)
               (TabWindow.tabItems tabWindow) /\
        computeTitle tabWindow
        = Some (match BookmarkFolder.title bookmarkFolder with
                | Some title => title
                | None =>
                    match
                      List.find (fun bm =>
                                   match BookmarkTreeNode.url bm with
                                   | Some _ => true
                                   | None => false
                                   end) children
                    with
                    | Some bm => bookmarkTitle bm
                    | None => ""
                    end
                end) /\
        removeOpenWindowState tabWindow = tabWindow).
Proof.
  unfold makeFolderTabWindow. split.
  - intros ->. reflexivity.
  - intros children ->. simpl.
    set (hasUrl := fun node : BookmarkTreeNode.t =>
                     match BookmarkTreeNode.url node with
                     | Some _ => true
                     | None => false
                     end).
    assert (Hfallback :
              match BookmarkFolder.title bookmarkFolder with
              | None =>
                  match map makeBookmarkedTabItem (filter hasUrl children) with
                  | first :: _ => TabItem.title first
                  | [] => Some ""
                  end
              | Some _ => Some ""
              end
              = Some (match BookmarkFolder.title bookmarkFolder with
                      | None =>
                          match List.find hasUrl children with
                          | Some bm => bookmarkTitle bm
                          | None => ""
                          end
                      | Some _ => ""
                      end)).
    { destruct (BookmarkFolder.title bookmarkFolder); [reflexivity|].
      induction children as [|bm children IH]; simpl.
      - reflexivity.
      - destruct (hasUrl bm); [reflexivity | exact IH]. }
    rewrite Hfallback. simpl. eexists. split; [reflexivity|]. simpl.
    split; [reflexivity|]. split; [reflexivity|].
    assert (Hitems : Forall (fun ti => TabItem.saved ti = true /\
                                       TabItem.open ti = false /\
                                       TabItem.openState ti = None)
                       (map makeBookmarkedTabItem (filter hasUrl children))).
    { apply Forall_forall. intros x Hx. apply in_map_iff in Hx.
      destruct Hx as [bm [<- _]]. simpl. auto. }
    split; [|split; [exact Hitems|split]].
    + clear. induction children as [|bm children IH]; simpl.
      * reflexivity.
      * unfold hasUrl at 1. destruct (BookmarkTreeNode.url bm); simpl;
          [f_equal|]; exact IH.
    + unfold computeTitle. simpl.
      destruct (BookmarkFolder.title bookmarkFolder); reflexivity.
    + assert (Hfixed :
                map resetSavedItem
                  (filter TabItem.saved
                     (map makeBookmarkedTabItem (filter hasUrl children)))
                = map makeBookmarkedTabItem (filter hasUrl children)).
      { rewrite filter_all.
        - rewrite map_map. apply map_ext. intros bm. reflexivity.
        - intros x Hx. rewrite Forall_forall in Hitems.
          apply (Hitems x Hx). }
      unfold removeOpenWindowState, TabWindow.set_tabItems. simpl.
      rewrite Hfixed. reflexivity.
Qed.

Lemma makeFolderTabWindow_closed_saved_witness :
  exists tabWindow,
    makeFolderTabWindow
      {| BookmarkFolder.id := "5"; BookmarkFolder.title := None;
         BookmarkFolder.children :=
           Some [ {| BookmarkTreeNode.id := "6"; BookmarkTreeNode.index := 0;
                     BookmarkTreeNode.title := Some "sub folder";
                     BookmarkTreeNode.url := None |};
                  Sample.bookmarkB; Sample.bookmarkA ] |}
    = Some tabWindow /\
    computeTitle tabWindow = Some "B" /\
    removeOpenWindowState tabWindow = tabWindow.
Proof.
  destruct (makeFolderTabWindow_closed_saved
              {| BookmarkFolder.id := "5"; BookmarkFolder.title := None;
                 BookmarkFolder.children :=
                   Some [ {| BookmarkTreeNode.id := "6";
                             BookmarkTreeNode.index := 0;
                             BookmarkTreeNode.title := Some "sub folder";
                             BookmarkTreeNode.url := None |};
                          Sample.bookmarkB; Sample.bookmarkA ] |})
    as [_ H].
  destruct (H _ eq_refl) as [tabWindow [Hw [_ [_ [_ [_ [Htitle Hfixed]]]]]]].
  exists tabWindow. split; [exact Hw|]. split; [exact Htitle | exact Hfixed].
Defined.

Lemma find_active_open (openTabs : list Tab.t) (n : nat) :
  (entry <- Immutable.findEntryFrom isActiveOpenTab n
              (map makeOpenTabItem openTabs) ;;
   Some (option_map snd entry))
  = Some (option_map makeOpenTabItem (List.find Tab.active openTabs)).
Proof.
  revert n. induction openTabs as [|tab openTabs IH]; intros n; simpl.
  - reflexivity.
  - unfold isActiveOpenTab at 1. simpl.
    destruct (Tab.active tab); simpl; [reflexivity | apply IH].
Qed.

(** X18.  The window [makeChromeTabWindow] makes of a snapshot, a
    missing tab list counting as empty, has one open item per tab; its
    title is the title of the first active tab, else of the first tab, else
    the empty string; and closing it with [removeOpenWindowState] leaves no
    item. *)
Theorem makeChromeTabWindow_open (chromeWindow : ChromeWindow.t) :
  let openTabs := match ChromeWindow.tabs chromeWindow with
                  | Some tabs => tabs
                  | None => []
                  end in
  openTabCount (makeChromeTabWindow chromeWindow) = List.length openTabs /\
  map TabItem.openState (TabWindow.tabItems (makeChromeTabWindow chromeWindow))
  = map (fun tab => Some (makeOpenTabState tab)) openTabs /\
  computeTitle (makeChromeTabWindow chromeWindow)
  = Some (match List.find Tab.active openTabs with
          | Some tab => tabTitle tab
          | None =>
              match openTabs with
              | tab :: _ => tabTitle tab
              | [] => ""
              end
          end) /\
  TabWindow.tabItems (removeOpenWindowState (makeChromeTabWindow chromeWindow))
  = [].
Proof.
  intros openTabs. unfold makeChromeTabWindow, openTabCount. simpl.
  fold openTabs. split; [|split; [|split]].
  - rewrite filter_all, length_map; [reflexivity|].
    intros x Hx. apply in_map_iff in Hx. destruct Hx as [tab [<- _]].
    reflexivity.
  - rewrite map_map. reflexivity.
  - unfold computeTitle, Immutable.find, Immutable.findEntry. simpl.
    rewrite find_active_open. simpl.
    destruct (List.find Tab.active openTabs) as [tab|]; [reflexivity|].
    simpl. destruct openTabs as [|tab rest]; reflexivity.
  - rewrite filter_saved_open. reflexivity.
Qed.

Lemma firstn_middle {A : Type} (pre rest : list A) :
  firstn (List.length pre) (pre ++ rest) = pre.
Proof. induction pre as [|y pre IH]; simpl; [destruct rest|f_equal]; auto. Qed.





(** Clearing the active flag of the previous active tab changes no tab
    id. *)
Lemma setActiveTab_cleared_ids (tabId : Z) (items : list TabItem.t)
    (prevPos : option (nat * TabItem.t)) (nonActiveItems : list TabItem.t) :
  Immutable.findEntry isActiveOpenTab items = Some prevPos ->
  match prevPos with
  | Some (prevIndex, prevActiveTab) =>
      prevOpenState <- TabItem.openState prevActiveTab ;;
      Some (Immutable.splice prevIndex 1
              [TabItem.set_openState
                 (Some (OpenTabState.remove_active prevOpenState))
                 prevActiveTab]
              items)
  | None => Some items
  end = Some nonActiveItems ->
  map (isOpenTabWithId tabId) nonActiveItems
  = map (isOpenTabWithId tabId) items.
Proof.
  intros Hprev Hnon. destruct prevPos as [[prevIndex prevActiveTab]|].
  - apply findEntry_inv in Hprev.
    destruct Hprev as [pre [post [-> [-> _]]]].
    apply bind_Some in Hnon. destruct Hnon as [prevOpenState [Hstate Hnon]].
    injection Hnon as <-. rewrite splice_at, !map_app. simpl.
    do 2 f_equal. unfold isOpenTabWithId. simpl. rewrite Hstate. reflexivity.
  - injection Hnon as <-. reflexivity.
Qed.

(** X20.  [setActiveTab] is idempotent.  Its test for a tab that is
    active already reads a field the item does not have and never holds,
    yet a second call with the same id clears and sets the same flag and
    returns the window the first call returned. *)
Theorem setActiveTab_idempotent (tabWindow : TabWindow.t) (tabId : Z)
    (pre post : list TabItem.t) (tabItem : TabItem.t)
    (openState : OpenTabState.t) :
  TabWindow.tabItems tabWindow = pre ++ tabItem :: post ->
  Forall openStateOk (TabWindow.tabItems tabWindow) ->
  Forall (fun ti => ~ matchesOpenTabId tabId ti) pre ->
  TabItem.open tabItem = true ->
  TabItem.openState tabItem = Some openState ->
  OpenTabState.openTabId openState = tabId ->
  (activeCount (TabWindow.tabItems tabWindow) <= 1)%nat ->
  exists tabWindow',
    setActiveTab tabWindow tabId = Some tabWindow' /\
    setActiveTab tabWindow' tabId = Some tabWindow'.
Proof.
  intros Hitems Hok Hmiss Hopen Hstate Hid Hcount.
  assert (Hpre : Forall (fun ti => isOpenTabWithId tabId ti = Some false) pre).
  { apply Forall_isOpenTabWithId_false; [|exact Hmiss].
    rewrite Hitems in Hok. apply Forall_app in Hok. tauto. }
  assert (Hmatch : isOpenTabWithId tabId tabItem = Some true).
  { apply isOpenTabWithId_true. split; [exact Hopen|].
    exists openState. auto. }
  destruct (setActiveTab_cleared Hok Hcount)
    as [prevPos [nonActiveItems [Hprev [Hnon [Hlen Hfalse]]]]].
  pose proof (setActiveTab_cleared_ids tabId _ Hprev Hnon) as Hids.
  set (updActiveTab := TabItem.set_openState
                         (Some (OpenTabState.set_active true openState))
                         tabItem).
  set (pre1 := firstn (List.length pre) nonActiveItems).
  set (post1 := skipn (List.length pre + 1) nonActiveItems).
  assert (Hlen1 : List.length pre1 = List.length pre).
  { apply firstn_length_le. rewrite Hlen, Hitems, length_app. simpl. lia. }
  assert (Hpre1 : Forall (fun ti => isOpenTabWithId tabId ti = Some false) pre1).
  { assert (Hmap : map (isOpenTabWithId tabId) pre1
                   = map (isOpenTabWithId tabId) pre).
    { unfold pre1. rewrite <- firstn_map, Hids, firstn_map.
      rewrite Hitems, firstn_middle. reflexivity. }
    apply (Forall_map (isOpenTabWithId tabId) (fun v => v = Some false)).
    rewrite Hmap. apply Forall_map. exact Hpre. }
  assert (Hactive1 : Forall (fun y => isActiveOpenTab y = Some false) pre1)
    by apply (Forall_firstn_skipn _ Hfalse).
  assert (Hfirst_call :
            setActiveTab tabWindow tabId
            = Some (TabWindow.set_tabItems (pre1 ++ updActiveTab :: post1)
                      tabWindow)).
  { unfold setActiveTab. rewrite Hitems at 1.
    rewrite findEntry_found by assumption.
    simpl. unfold TabItem.active. rewrite Hprev. simpl.
    rewrite Hnon. simpl. rewrite Hstate. reflexivity. }
  rewrite Hfirst_call. eexists. split; [reflexivity|].
  unfold setActiveTab. simpl.
  rewrite findEntry_found; [|exact Hpre1|].
  - simpl. unfold TabItem.active.
    rewrite findEntry_found; [|exact Hactive1|].
    + simpl. rewrite splice_at. cbn [app]. rewrite splice_at. reflexivity.
    + unfold isActiveOpenTab, updActiveTab. simpl. rewrite Hopen.
      reflexivity.
  - unfold isOpenTabWithId, updActiveTab. simpl. rewrite Hopen. simpl.
    rewrite Hid, Z.eqb_refl. reflexivity.
Qed.

Lemma setActiveTab_idempotent_witness :
  exists tabWindow',
    setActiveTab Sample.window 8 = Some tabWindow' /\
    setActiveTab tabWindow' 8 = Some tabWindow'.
Proof.
  apply (@setActiveTab_idempotent Sample.window 8
           [makeOpenTabItem Sample.tabA] [] (makeOpenTabItem Sample.tabB)
           (makeOpenTabState Sample.tabB)); try reflexivity.
  - repeat constructor; intros _; discriminate.
  - repeat constructor. intros [_ [openState [Hstate Hid]]].
    injection Hstate as <-. discriminate.
Defined.
